(** * PathService (src/services/pathService.ts): working-directory resolution

    A shallow embedding of the [PathService] class of the extension and of
    the module-level helper [checkPathExists], followed by the properties the
    specification states about them.

    - JavaScript strings are [string], held as their UTF-8 bytes;
      [string | undefined] is [option string].
    - A promise is run to completion: it is either resolved with a value or
      rejected with a reason.  The chain of [cwd] runs sequentially, so a
      promise of the class is a function from the static fields of the class
      to its settlement, the new static fields and the list of calls made
      on the way.  An exception thrown in a promise executor or in a handler
      of [then] or [catch] rejects the promise with what was thrown.
    - What the editor, the file system, and the [path] and [find-up] modules
      answer is not decided by this file: they are the fields of a [Host]. *)

From Stdlib Require Import String Ascii List Bool ZArith Lia.
Import ListNotations.
Local Open Scope string_scope.

(** ** JavaScript values *)

Module Js.

(** [new Error(message)] *)
Record Error : Type := mkError { message : string }.

(** The error handed to the callback of [fs.access]. *)
Record ErrnoException : Type := mkErrno { errno_code : string }.

(** [s.startsWith(search)] *)
Definition startsWith (s search : string) : bool := String.prefix search s.

(** [ToString(v)] for a value that is a string or [undefined]: what
    [startsWith] does to its argument. *)
Definition toString (v : option string) : string :=
  match v with
  | Some s => s
  | None => "undefined"
  end.

(** [!e] for a value that is an object or [null]. *)
Definition not_ {A : Type} (e : option A) : bool :=
  match e with
  | Some _ => false
  | None => true
  end.

(** White space and line terminators of the ASCII range, as
    [String.prototype.trim] strips them: TAB, LF, VT, FF, CR and SP. *)
Definition isWhiteSpace (c : ascii) : bool :=
  let n := nat_of_ascii c in
  ((9 <=? n)%nat && (n <=? 13)%nat) || (n =? 32)%nat.

(** The white space beyond ASCII that [trim] strips, by its UTF-8 bytes.
    Two bytes: U+00A0. *)
Definition isWhiteSpace2 (a b : ascii) : bool :=
  (nat_of_ascii a =? 194)%nat && (nat_of_ascii b =? 160)%nat.

(** Three bytes: U+1680, U+2000 to U+200A, U+2028, U+2029, U+202F, U+205F,
    U+3000 and U+FEFF. *)
Definition isWhiteSpace3 (a b c : ascii) : bool :=
  let x := nat_of_ascii a in
  let y := nat_of_ascii b in
  let z := nat_of_ascii c in
  ((x =? 225) && (y =? 154) && (z =? 128))%nat
  || ((x =? 226) && (y =? 128) &&
      (((128 <=? z) && (z <=? 138)) || (z =? 168) || (z =? 169) || (z =? 175)))%nat
  || ((x =? 226) && (y =? 129) && (z =? 159))%nat
  || ((x =? 227) && (y =? 128) && (z =? 128))%nat
  || ((x =? 239) && (y =? 187) && (z =? 191))%nat.

(** [s] is one white-space character and nothing else. *)
Definition isSpaceChar (s : string) : bool :=
  match s with
  | String a EmptyString => isWhiteSpace a
  | String a (String b EmptyString) => isWhiteSpace2 a b
  | String a (String b (String c EmptyString)) => isWhiteSpace3 a b c
  | _ => false
  end.

Fixpoint trimStart (s : string) : string :=
  match s with
  | EmptyString => EmptyString
  | String a s1 =>
      if isWhiteSpace a then trimStart s1
      else
        match s1 with
        | EmptyString => s
        | String b s2 =>
            if isWhiteSpace2 a b then trimStart s2
            else
              match s2 with
              | EmptyString => s
              | String c s3 => if isWhiteSpace3 a b c then trimStart s3 else s
              end
        end
  end.

(** From the right: what is left of the tail is kept unless, with the
    character before it, it is one white-space character. *)
Fixpoint trimEnd (s : string) : string :=
  match s with
  | EmptyString => EmptyString
  | String c rest =>
      let kept := String c (trimEnd rest) in
      if isSpaceChar kept then EmptyString else kept
  end.

(** [s.trim()] *)
Definition trim (s : string) : string := trimEnd (trimStart s).

(** How a promise ends: [resolve(a)] or [reject(e)]. *)
Inductive settled (E A : Type) : Type :=
| Resolved (a : A)
| Rejected (e : E).
Arguments Resolved {E A} a.
Arguments Rejected {E A} e.

End Js.
Export Js.

(** ** The host: editor, workspace, file system, [path] and [find-up] *)

(** What a call [fs.access(path, callback)] does: it throws at once (an
    argument that is no valid path), or it hands the callback an error or
    [null]. *)
Inductive AccessResult : Type :=
| AccessThrows (e : Error)
| AccessCallback (e : option ErrnoException).

Record Host : Type := mkHost {
  (** [vscode.window.activeTextEditor]: [None] when it is undefined, else the
      [document.fileName] of the editor. *)
  activeTextEditor : option string;
  (** [vscode.workspace.rootPath]: [None] when it is undefined, which is the
      case when no folder is open. *)
  rootPath : option string;
  (** [findUp(name, { cwd })]: the path of the nearest [name] at or above
      [cwd], or [null]. *)
  findUp : string -> string -> option string;
  (** [fs.access(path, callback)] *)
  fs_access : string -> AccessResult;
  (** [path.join(a, b)] on two strings *)
  path_join : string -> string -> string;
  (** The TypeError [path.join] throws when an argument is [undefined]. *)
  path_join_undefined : Error;
  (** [path.dirname(p)] *)
  path_dirname : string -> string
}.

(** ** Calls observed during a run *)

Inductive method : Type :=
| cwd_
| checkWorkspaceCanBeUsedAsCwd_
| getCwdFromActiveTextEditor_
| findCargoTomlUpToWorkspace_
| getPreviousCwd_
| checkPathExists_.

Inductive event : Type :=
| Call (m : method)                 (* a function of this module is entered *)
| FindUp (name dir : string)        (* findUp(name, { cwd: dir }) *)
| FsAccess (path : string)          (* fs.access(path, ...) *)
| SetPreviousCwd (dir : string).    (* PathService.previousCwd = dir *)

(** The three strategies of [cwd], named after the function that runs each. *)
Inductive strategy : Type :=
| ActiveDocument
| RememberedRoot
| WorkspaceRoot.

Definition strategy_of (ev : event) : option strategy :=
  match ev with
  | Call getCwdFromActiveTextEditor_ => Some ActiveDocument
  | Call getPreviousCwd_ => Some RememberedRoot
  | Call checkWorkspaceCanBeUsedAsCwd_ => Some WorkspaceRoot
  | _ => None
  end.

Fixpoint attempted (t : list event) : list strategy :=
  match t with
  | [] => []
  | ev :: rest =>
      match strategy_of ev with
      | Some s => s :: attempted rest
      | None => attempted rest
      end
  end.

Definition is_write (ev : event) : bool :=
  match ev with
  | SetPreviousCwd _ => true
  | _ => false
  end.

Definition is_search (ev : event) : bool :=
  match ev with
  | FindUp _ _ => true
  | _ => false
  end.

(** ** Static fields and promises of the class *)

(** [private static previousCwd: string | undefined] *)
Record Statics : Type := mkStatics { previousCwd : option string }.

Definition initial : Statics := {| previousCwd := None |}.

Record Run (A : Type) : Type := mkRun {
  outcome : settled Error A;
  statics : Statics;
  trace : list event
}.
Arguments mkRun {A} _ _ _.
Arguments outcome {A} _.
Arguments statics {A} _.
Arguments trace {A} _.

Definition Promise (A : Type) : Type := Statics -> Run A.

Module PromiseOps.

(** [Promise.resolve(a)] *)
Definition resolve {A} (a : A) : Promise A :=
  fun st => mkRun (Resolved a) st [].

(** [Promise.reject(e)] *)
Definition reject {A} (e : Error) : Promise A :=
  fun st => mkRun (Rejected e) st [].

(** [throw e] inside an executor or a handler: the promise under
    construction is rejected with [e]. *)
Definition throw_ {A} (e : Error) : Promise A := reject e.

(** [p.then(f)]: a rejection of [p] passes through. *)
Definition then_ {A B} (p : Promise A) (f : A -> Promise B) : Promise B :=
  fun st =>
    let r := p st in
    match outcome r with
    | Resolved a =>
        let r' := f a (statics r) in
        mkRun (outcome r') (statics r') (trace r ++ trace r')
    | Rejected e => mkRun (Rejected e) (statics r) (trace r)
    end.

(** [p.catch(f)]: a value of [p] passes through. *)
Definition catch_ {A} (p : Promise A) (f : Error -> Promise A) : Promise A :=
  fun st =>
    let r := p st in
    match outcome r with
    | Resolved a => mkRun (Resolved a) (statics r) (trace r)
    | Rejected e =>
        let r' := f e (statics r) in
        mkRun (outcome r') (statics r') (trace r ++ trace r')
    end.

(** A step that cannot fail and only leaves a mark in the trace. *)
Definition emit (ev : event) : Promise unit :=
  fun st => mkRun (Resolved tt) st [ev].

(** Reading and writing [PathService.previousCwd]. *)
Definition readPreviousCwd : Promise (option string) :=
  fun st => mkRun (Resolved (previousCwd st)) st [].

Definition writePreviousCwd (dir : string) : Promise unit :=
  fun _ => mkRun (Resolved tt) {| previousCwd := Some dir |} [SetPreviousCwd dir].

Notation "x <- p ;; k" := (then_ p (fun x => k))
  (at level 61, p at next level, right associativity).
Notation "p ;; k" := (then_ p (fun _ => k))
  (at level 61, right associativity).

End PromiseOps.
Import PromiseOps.

(** ** The functions of the module *)

Section PathService.

Variable h : Host.

(** [findUp('Cargo.toml', opts)] as a promise: it resolves with the path
    found or with [null]. *)
Definition callFindUp (name dir : string) : Promise (option string) :=
  emit (FindUp name dir) ;; resolve (findUp h name dir).

(** [fs.access(path, e => ...)] inside the executor of [new Promise]: the
    value the callback receives, or the exception of the call. *)
Definition callFsAccess (path : string) : Promise (option ErrnoException) :=
  emit (FsAccess path) ;;
  match fs_access h path with
  | AccessThrows thrown => throw_ thrown
  | AccessCallback e => resolve e
  end.

(** [path.join(vscode.workspace.rootPath, name)]: a TypeError when the
    root is undefined. *)
Definition joinRootPath (name : string) : Promise string :=
  match rootPath h with
  | Some root => resolve (path_join h root name)
  | None => throw_ (path_join_undefined h)
  end.

(** [function checkPathExists(path)] (lines 147-156). *)
Definition checkPathExists (path : string) : Promise bool :=
  emit (Call checkPathExists_) ;;
  e <- callFsAccess path ;;
  (* A path exists if there is no error *)
  let pathExists := not_ e in
  resolve pathExists.

(** [checkWorkspaceCanBeUsedAsCwd] (lines 94-98).  Its one caller is the
    second [catch] handler of [cwd], so an exception of [path.join] rejects
    the promise of that handler. *)
Definition checkWorkspaceCanBeUsedAsCwd : Promise bool :=
  emit (Call checkWorkspaceCanBeUsedAsCwd_) ;;
  filePath <- joinRootPath "Cargo.toml" ;;
  checkPathExists filePath.

(** [findCargoTomlUpToWorkspace] (lines 114-128). *)
Definition findCargoTomlUpToWorkspace (dir : string) : Promise string :=
  emit (Call findCargoTomlUpToWorkspace_) ;;
  cargoTomlDirPath <- callFindUp "Cargo.toml" dir ;;
  match cargoTomlDirPath with
  | None => reject (mkError "Cargo.toml hasn't been found")
  | Some found =>
      if negb (startsWith found (toString (rootPath h)))
      then reject (mkError "Cargo.toml hasn't been found within the workspace")
      else resolve (path_dirname h found)
  end.

(** [getCwdFromActiveTextEditor] (lines 100-112). *)
Definition getCwdFromActiveTextEditor : Promise string :=
  emit (Call getCwdFromActiveTextEditor_) ;;
  match activeTextEditor h with
  | None => reject (mkError "No active document")
  | Some fileName =>
      if negb (startsWith fileName (toString (rootPath h)))
      then reject (mkError "Current document not in the workspace")
      else findCargoTomlUpToWorkspace (path_dirname h fileName)
  end.

(** [getPreviousCwd] (lines 130-144). *)
Definition getPreviousCwd (error : Error) : Promise string :=
  emit (Call getPreviousCwd_) ;;
  previous <- readPreviousCwd ;;
  match previous with
  | None => reject error
  | Some dir =>
      let pathToCargoTomlInPreviousCwd := path_join h dir "Cargo.toml" in
      exists_ <- checkPathExists pathToCargoTomlInPreviousCwd ;;
      (* Line 139 reads the field again; [checkPathExists] does not write
         it, so the value is still [dir]. *)
      if exists_ : bool
      then resolve dir
      else reject error
  end.

(** [Promise.resolve(vscode.workspace.rootPath)] (line 86).  The root is
    defined there: with an undefined root line 95 has thrown before
    ([checkWorkspaceCanBeUsedAsCwd_without_folder] below), so the second
    branch is never run. *)
Definition resolveRootPath : Promise string :=
  match rootPath h with
  | Some root => resolve root
  | None => throw_ (path_join_undefined h)
  end.

(** [cwd] (lines 59-92). *)
Definition cwd : Promise string :=
  emit (Call cwd_) ;;
  catch_
    (catch_
       (newCwd <- getCwdFromActiveTextEditor ;;
        writePreviousCwd newCwd ;;
        resolve newCwd)
       (fun error => getPreviousCwd error))
    (fun error =>
       canBeUsed <- checkWorkspaceCanBeUsedAsCwd ;;
       if canBeUsed : bool
       then resolveRootPath
       else reject error).

End PathService.

(** ** [getRustcSysroot] (lines 10-26) *)

Module Sysroot.

(** An event a spawned process delivers to its listeners: ['error'], or
    ['exit'] with its status, which is [null] when a signal ended it.  With
    an ['exit'] comes what [stdout.read()] gives when its listener runs,
    which is [null] when nothing is buffered. *)
Inductive ChildEvent : Type :=
| OnError
| OnExit (code : option Z) (read : option string).

(** [cp.spawn(command, args, options)] as far as the function looks at it:
    the events the process emits, in order.  A process that is still running
    has emitted none; ['error'] may be followed by ['exit']. *)
Record ChildProcess : Type := mkChild {
  emitted : list ChildEvent
}.

Record SpawnCall : Type := mkSpawn {
  command : string;
  args : list string;
  spawn_cwd : string
}.

Record ProcessHost : Type := mkProcessHost {
  process_cwd : string;
  spawn : SpawnCall -> ChildProcess
}.

(** What a listener does to the promise it closes over: it calls
    [resolve(v)], calls [reject()], or throws before calling either. *)
Inductive completion : Type :=
| Resolves (v : string)
| Rejects
| Throws.

(** The promise returned.  The rejection carries no reason: [reject()] is
    called without argument. *)
Inductive PromiseState : Type :=
| Pending
| Fulfilled (v : string)
| RejectedPromise.

Record SysrootRun : Type := mkSysrootRun {
  promise : PromiseState;
  uncaught : bool;                 (* an exception left a listener *)
  spawned : list SpawnCall
}.

(** [code === 0] *)
Definition is_zero (code : option Z) : bool :=
  match code with
  | Some 0%Z => true
  | _ => false
  end.

(** The listener of ['error'] (lines 14-16). *)
Definition onError : completion := Rejects.

(** The listener of ['exit'] (lines 17-24).  [.toString()] on [null]
    throws a TypeError. *)
Definition onExit (code : option Z) (read : option string) : completion :=
  if is_zero code
  then match read with
       | Some buffer =>
           let sysroot := trim buffer in
           Resolves sysroot
       | None => Throws
       end
  else Rejects.

Definition listener (ev : ChildEvent) : completion :=
  match ev with
  | OnError => onError
  | OnExit code read => onExit code read
  end.

(** [resolve] and [reject] act on a pending promise only. *)
Definition settle (state : PromiseState) (c : completion) : PromiseState :=
  match state with
  | Pending =>
      match c with
      | Resolves v => Fulfilled v
      | Rejects => RejectedPromise
      | Throws => Pending
      end
  | _ => state
  end.

Definition threw (c : completion) : bool :=
  match c with
  | Throws => true
  | _ => false
  end.

(** The listeners run on the events in order. *)
Fixpoint deliver (events : list ChildEvent) (state : PromiseState) (thrown : bool)
  : PromiseState * bool :=
  match events with
  | [] => (state, thrown)
  | ev :: rest =>
      deliver rest (settle state (listener ev)) (thrown || threw (listener ev))
  end.

Definition getRustcSysroot (h : ProcessHost) : SysrootRun :=
  let options := process_cwd h in
  let call := mkSpawn "rustc" ["--print"; "sysroot"] options in
  let spawnedProcess := spawn h call in
  let '(state, thrown) := deliver (emitted spawnedProcess) Pending false in
  mkSysrootRun state thrown [call].

End Sysroot.

(** ** A small POSIX host, to run the functions on concrete workspaces *)

Module Sample.

(** The part of a path before its last slash, if it has one. *)
Fixpoint beforeLastSlash (p : string) : option string :=
  match p with
  | EmptyString => None
  | String c rest =>
      match beforeLastSlash rest with
      | Some d => Some (String c d)
      | None => if Ascii.eqb c "/" then Some EmptyString else None
      end
  end.

Definition dirname (p : string) : string :=
  match beforeLastSlash p with
  | None => "."
  | Some EmptyString => "/"
  | Some d => d
  end.

Definition join (a b : string) : string :=
  if String.eqb a "/" then a ++ b else a ++ "/" ++ b.

Definition mem (p : string) (files : list string) : bool :=
  existsb (String.eqb p) files.

(** Walk from [dir] towards the root, at most [fuel] directories. *)
Fixpoint walkUp (files : list string) (name : string) (fuel : nat) (dir : string)
  : option string :=
  match fuel with
  | O => None
  | S n =>
      let candidate := join dir name in
      if mem candidate files then Some candidate
      else if String.eqb (dirname dir) dir then None
      else walkUp files name n (dirname dir)
  end.

(** A path with a NUL character is no valid argument of [fs.access]. *)
Fixpoint hasNul (p : string) : bool :=
  match p with
  | EmptyString => false
  | String c rest => (nat_of_ascii c =? 0)%nat || hasNul rest
  end.

Definition invalid_path : Error :=
  mkError "The argument 'path' must be a string or Uint8Array without null bytes.".

Definition join_undefined : Error :=
  mkError "Path must be a string. Received undefined".

(** A host whose file system holds exactly [files]. *)
Definition host_of (doc root : option string) (files : list string) : Host :=
  {| activeTextEditor := doc;
     rootPath := root;
     findUp := fun name dir => walkUp files name (S (String.length dir)) dir;
     fs_access := fun p =>
       if hasNul p then AccessThrows invalid_path
       else if mem p files then AccessCallback None
       else AccessCallback (Some (mkErrno "ENOENT"));
     path_join := join;
     path_join_undefined := join_undefined;
     path_dirname := dirname |}.

(** The same with a folder open. *)
Definition host (doc : option string) (root : string) (files : list string) : Host :=
  host_of doc (Some root) files.

(** The scenario of the specification: one crate below the workspace. *)
Definition crate_files : list string := ["/ws/proj/Cargo.toml"; "/ws/proj/src/lib.rs"].

Definition in_crate : Host := host (Some "/ws/proj/src/lib.rs") "/ws" crate_files.

Definition no_document : Host := host None "/ws" ["/ws/Cargo.toml"].

Definition nothing : Host := host None "/ws" [].

(** No folder is open and no editor is active. *)
Definition no_folder : Host := host_of None None [].

(** A crate next to the workspace whose name extends the root string. *)
Definition sibling : Host :=
  host (Some "/ws-other/src/main.rs") "/ws" ["/ws-other/Cargo.toml"].

(** A path with a NUL character in it. *)
Definition nul_path : string :=
  "/ws" ++ String (ascii_of_nat 0) "/Cargo.toml".

(** A [rustc] that prints its sysroot, one that fails, one that is
    missing, one that exits with status zero having printed nothing, and one
    that does not exit. *)
Definition ok_newline : ascii := ascii_of_nat 10.

Definition rustc_ok : Sysroot.ProcessHost :=
  Sysroot.mkProcessHost "/ws"
    (fun _ => Sysroot.mkChild
                [Sysroot.OnExit (Some 0%Z)
                   (Some ("/opt/rust" ++ String ok_newline EmptyString))]).

Definition rustc_fails : Sysroot.ProcessHost :=
  Sysroot.mkProcessHost "/ws"
    (fun _ => Sysroot.mkChild [Sysroot.OnExit (Some 1%Z) None]).

Definition rustc_missing : Sysroot.ProcessHost :=
  Sysroot.mkProcessHost "/ws" (fun _ => Sysroot.mkChild [Sysroot.OnError]).

Definition rustc_silent : Sysroot.ProcessHost :=
  Sysroot.mkProcessHost "/ws"
    (fun _ => Sysroot.mkChild [Sysroot.OnExit (Some 0%Z) None]).

Definition rustc_hangs : Sysroot.ProcessHost :=
  Sysroot.mkProcessHost "/ws" (fun _ => Sysroot.mkChild []).

End Sample.

(** ** The diagnostics of the active-document strategy

    The four errors [getCwdFromActiveTextEditor] creates, under the names
    the specification gives to their reasons. *)

Definition NoActiveDocument : Error :=
  mkError "No active document".
Definition DocumentOutsideWorkspace : Error :=
  mkError "Current document not in the workspace".
Definition MarkerNotFound : Error :=
  mkError "Cargo.toml hasn't been found".
Definition MarkerOutsideWorkspace : Error :=
  mkError "Cargo.toml hasn't been found within the workspace".

Definition writes (t : list event) : list event := filter is_write t.
Definition searches (t : list event) : list event := filter is_search t.

Definition is_set (v : option string) : bool :=
  match v with
  | Some _ => true
  | None => false
  end.

(** ** The configured tool paths (lines 28-57)

    [vscode.workspace.getConfiguration('rust')[key]] is a string or is
    absent; [process.env[name]] likewise.  [a || b] keeps [a] when it is
    truthy: for a string, when it is not empty. *)

Record Settings : Type := mkSettings {
  (** [vscode.workspace.getConfiguration(section)[key]] *)
  getConfiguration : string -> string -> option string;
  (** [process.env[name]] *)
  process_env : string -> option string
}.

Definition truthy (v : option string) : bool :=
  match v with
  | Some s => negb (String.eqb s "")
  | None => false
  end.

(** [a || b] where [b] may be absent too. *)
Definition or_ (a b : option string) : option string :=
  if truthy a then a else b.

(** [a || 'literal'] *)
Definition or_literal (a : option string) (literal : string) : string :=
  match or_ a (Some literal) with
  | Some s => s
  | None => literal
  end.

Section Accessors.

Variable env : Settings.

Definition getRacerPath : string :=
  let racerPath := getConfiguration env "rust" "racerPath" in
  or_literal racerPath "racer".

Definition getRustfmtPath : string :=
  let rusfmtPath := getConfiguration env "rust" "rustfmtPath" in
  or_literal rusfmtPath "rustfmt".

Definition getRustsymPath : string :=
  let rustsymPath := getConfiguration env "rust" "rustsymPath" in
  or_literal rustsymPath "rustsym".

Definition getRustLangSrcPath : string :=
  let rustSrcPath := getConfiguration env "rust" "rustLangSrcPath" in
  or_literal rustSrcPath "".

Definition getCargoPath : string :=
  let cargoPath := getConfiguration env "rust" "cargoPath" in
  or_literal cargoPath "cargo".

Definition getCargoHomePath : string :=
  let cargoHomePath := getConfiguration env "rust" "cargoHomePath" in
  or_literal (or_ cargoHomePath (process_env env "CARGO_HOME")) "".

End Accessors.

(** Settings given as lists of pairs, to run the accessors. *)
Fixpoint assoc (key : string) (pairs : list (string * string)) : option string :=
  match pairs with
  | [] => None
  | (k, v) :: rest => if String.eqb k key then Some v else assoc key rest
  end.

Definition settings_of (rust : list (string * string)) (vars : list (string * string))
  : Settings :=
  {| getConfiguration := fun section key =>
       if String.eqb section "rust" then assoc key rust else None;
     process_env := fun name => assoc name vars |}.

Import Sysroot.

(** ** Vocabulary of the further properties *)

Definition is_access (ev : event) : bool :=
  match ev with
  | FsAccess _ => true
  | _ => false
  end.

Definition accesses (t : list event) : list event := filter is_access t.

(** What a host call of [cwd] may ask for: a Cargo.toml, by search or
    directly inside some directory. *)
Definition asks_for_manifest (h : Host) (ev : event) : Prop :=
  match ev with
  | FindUp name _ => name = "Cargo.toml"
  | FsAccess path => exists dir, path = path_join h dir "Cargo.toml"
  | _ => True
  end.

(** [fs.access] reports no error for the path. *)
Definition accessible (h : Host) (path : string) : bool :=
  match fs_access h path with
  | AccessCallback None => true
  | _ => false
  end.

(** The remembered root can be used: it is set and its Cargo.toml can be
    accessed. *)
Definition remembered_usable (h : Host) (st : Statics) : bool :=
  match previousCwd st with
  | Some dir => accessible h (path_join h dir "Cargo.toml")
  | None => false
  end.

(** The workspace root holds a Cargo.toml that can be accessed. *)
Definition workspace_usable (h : Host) : bool :=
  match rootPath h with
  | Some root => accessible h (path_join h root "Cargo.toml")
  | None => false
  end.

(** [fs.access] throws on the path instead of calling back. *)
Definition access_throws (h : Host) (path : string) : bool :=
  match fs_access h path with
  | AccessThrows _ => true
  | AccessCallback _ => false
  end.

(** How the workspace-root strategy ends when it is reached with [error]
    (lines 83-98). *)
Definition workspace_outcome (h : Host) (error : Error) : settled Error string :=
  match rootPath h with
  | None => Rejected (path_join_undefined h)
  | Some root =>
      match fs_access h (path_join h root "Cargo.toml") with
      | AccessThrows thrown => Rejected thrown
      | AccessCallback None => Resolved root
      | AccessCallback (Some _) => Rejected error
      end
  end.

(** A listener that throws: ['exit'] with status zero and nothing read. *)
Definition silent_exit (ev : ChildEvent) : Prop := ev = OnExit (Some 0%Z) None.

(** A listener that rejects: ['error'], or ['exit'] with another status. *)
Definition rejecting (ev : ChildEvent) : Prop :=
  ev = OnError \/ exists code read, ev = OnExit code read /\ code <> Some 0%Z.

(** The static fields after calling [cwd] once per host of a list, in order:
    the editor and the file system may differ from call to call. *)
Definition cwd_each (hosts : list Host) (st : Statics) : Statics :=
  fold_left (fun st' h => statics (cwd h st')) hosts st.

Definition firstChar (s : string) : option ascii :=
  match s with
  | EmptyString => None
  | String c _ => Some c
  end.

Fixpoint lastChar (s : string) : option ascii :=
  match s with
  | EmptyString => None
  | String c rest =>
      match lastChar rest with
      | Some l => Some l
      | None => Some c
      end
  end.

Fixpoint allWhiteSpace (s : string) : bool :=
  match s with
  | EmptyString => true
  | String c rest => isWhiteSpace c && allWhiteSpace rest
  end.

(** Simplify around the three strategies without opening them. *)
Ltac frozen_cbn :=
  cbn -[getCwdFromActiveTextEditor getPreviousCwd checkWorkspaceCanBeUsedAsCwd].

(** * Properties *)

(** ** Equations of the helpers *)

Lemma startsWith_iff (s search : string) :
  startsWith s search = true <-> exists rest, s = search ++ rest.
Proof.
  unfold startsWith. revert s.
  induction search as [|a search IH]; intros s; cbn.
  - destruct s; split; eauto.
  - destruct s as [|b s]; cbn.
    + split; [discriminate | intros [rest H]; discriminate].
    + destruct (ascii_dec a b) as [->|Hab].
      * rewrite IH. split; intros [rest H]; exists rest.
        -- now rewrite H.
        -- now injection H.
      * split; [discriminate | intros [rest H]; injection H; congruence].
Qed.

Lemma attempted_app (t u : list event) :
  attempted (t ++ u) = (attempted t ++ attempted u)%list.
Proof.
  induction t as [|ev t IH]; cbn; [reflexivity|].
  destruct (strategy_of ev); cbn; now rewrite IH.
Qed.

Lemma checkPathExists_run (h : Host) (path : string) (st : Statics) :
  checkPathExists h path st =
  mkRun match fs_access h path with
        | AccessThrows thrown => Rejected thrown
        | AccessCallback e => Resolved (not_ e)
        end
        st [Call checkPathExists_; FsAccess path].
Proof.
  unfold checkPathExists, callFsAccess, then_, emit, throw_, resolve, reject; cbn.
  now destruct (fs_access h path).
Qed.

Lemma checkWorkspaceCanBeUsedAsCwd_run (h : Host) (st : Statics) :
  checkWorkspaceCanBeUsedAsCwd h st =
  match rootPath h with
  | None =>
      mkRun (Rejected (path_join_undefined h)) st [Call checkWorkspaceCanBeUsedAsCwd_]
  | Some root =>
      mkRun match fs_access h (path_join h root "Cargo.toml") with
            | AccessThrows thrown => Rejected thrown
            | AccessCallback e => Resolved (not_ e)
            end
            st
            [Call checkWorkspaceCanBeUsedAsCwd_; Call checkPathExists_;
             FsAccess (path_join h root "Cargo.toml")]
  end.
Proof.
  unfold checkWorkspaceCanBeUsedAsCwd, joinRootPath, checkPathExists, callFsAccess,
    then_, emit, throw_, resolve, reject; cbn.
  destruct (rootPath h) as [root|]; cbn; [|reflexivity].
  now destruct (fs_access h (path_join h root "Cargo.toml")).
Qed.

(** With no folder open the workspace test ends in the TypeError of
    [path.join]; it does not resolve. *)
Lemma checkWorkspaceCanBeUsedAsCwd_without_folder (h : Host) (st : Statics) :
  rootPath h = None ->
  outcome (checkWorkspaceCanBeUsedAsCwd h st) = Rejected (path_join_undefined h).
Proof. intros H. now rewrite checkWorkspaceCanBeUsedAsCwd_run, H. Qed.

Lemma checkWorkspaceCanBeUsedAsCwd_statics (h : Host) (st : Statics) :
  statics (checkWorkspaceCanBeUsedAsCwd h st) = st.
Proof.
  rewrite checkWorkspaceCanBeUsedAsCwd_run. now destruct (rootPath h).
Qed.

Lemma checkWorkspaceCanBeUsedAsCwd_attempted (h : Host) (st : Statics) :
  attempted (trace (checkWorkspaceCanBeUsedAsCwd h st)) = [WorkspaceRoot].
Proof.
  rewrite checkWorkspaceCanBeUsedAsCwd_run. now destruct (rootPath h).
Qed.

Lemma checkWorkspaceCanBeUsedAsCwd_writes (h : Host) (st : Statics) :
  writes (trace (checkWorkspaceCanBeUsedAsCwd h st)) = [].
Proof.
  rewrite checkWorkspaceCanBeUsedAsCwd_run. now destruct (rootPath h).
Qed.

Lemma getPreviousCwd_unset (h : Host) (error : Error) (st : Statics) :
  previousCwd st = None ->
  getPreviousCwd h error st = mkRun (Rejected error) st [Call getPreviousCwd_].
Proof.
  intros H. unfold getPreviousCwd, then_, emit, readPreviousCwd; cbn.
  now rewrite H.
Qed.

Lemma getPreviousCwd_set (h : Host) (error : Error) (st : Statics) (dir : string) :
  previousCwd st = Some dir ->
  getPreviousCwd h error st =
  mkRun match fs_access h (path_join h dir "Cargo.toml") with
        | AccessThrows thrown => Rejected thrown
        | AccessCallback None => Resolved dir
        | AccessCallback (Some _) => Rejected error
        end
        st
        [Call getPreviousCwd_; Call checkPathExists_;
         FsAccess (path_join h dir "Cargo.toml")].
Proof.
  intros H.
  unfold getPreviousCwd, checkPathExists, callFsAccess, then_, emit,
    readPreviousCwd, throw_, resolve, reject; cbn.
  rewrite H; cbn.
  now destruct (fs_access h (path_join h dir "Cargo.toml")) as [thrown|[e|]].
Qed.

Lemma getPreviousCwd_statics (h : Host) (error : Error) (st : Statics) :
  statics (getPreviousCwd h error st) = st.
Proof.
  destruct (previousCwd st) as [dir|] eqn:H.
  - now rewrite (getPreviousCwd_set h error st dir H).
  - now rewrite (getPreviousCwd_unset h error st H).
Qed.

Lemma getPreviousCwd_attempted (h : Host) (error : Error) (st : Statics) :
  attempted (trace (getPreviousCwd h error st)) = [RememberedRoot].
Proof.
  destruct (previousCwd st) as [dir|] eqn:H.
  - now rewrite (getPreviousCwd_set h error st dir H).
  - now rewrite (getPreviousCwd_unset h error st H).
Qed.

Lemma getPreviousCwd_writes (h : Host) (error : Error) (st : Statics) :
  writes (trace (getPreviousCwd h error st)) = [].
Proof.
  destruct (previousCwd st) as [dir|] eqn:H.
  - now rewrite (getPreviousCwd_set h error st dir H).
  - now rewrite (getPreviousCwd_unset h error st H).
Qed.

(** The remembered-root strategy rejects with the error it was handed, or
    with what [fs.access] threw. *)
Lemma getPreviousCwd_rejects (h : Host) (error e : Error) (st : Statics) :
  outcome (getPreviousCwd h error st) = Rejected e ->
  e = error \/
  exists dir, previousCwd st = Some dir /\
              fs_access h (path_join h dir "Cargo.toml") = AccessThrows e.
Proof.
  destruct (previousCwd st) as [dir|] eqn:H.
  - rewrite (getPreviousCwd_set h error st dir H); cbn.
    destruct (fs_access h (path_join h dir "Cargo.toml")) as [thrown|[err|]] eqn:Ha;
      intros He; [right|left|discriminate].
    + exists dir. split; [reflexivity | congruence].
    + congruence.
  - rewrite (getPreviousCwd_unset h error st H); cbn. left; congruence.
Qed.

(** The active-document strategy in one equation: it neither reads nor
    writes the static field, and what it answers is decided by the host. *)
Lemma getCwdFromActiveTextEditor_run (h : Host) (st : Statics) :
  getCwdFromActiveTextEditor h st =
  match activeTextEditor h with
  | None => mkRun (Rejected NoActiveDocument) st [Call getCwdFromActiveTextEditor_]
  | Some fileName =>
      if startsWith fileName (toString (rootPath h))
      then
        mkRun
          match findUp h "Cargo.toml" (path_dirname h fileName) with
          | None => Rejected MarkerNotFound
          | Some found =>
              if startsWith found (toString (rootPath h))
              then Resolved (path_dirname h found)
              else Rejected MarkerOutsideWorkspace
          end
          st
          [Call getCwdFromActiveTextEditor_; Call findCargoTomlUpToWorkspace_;
           FindUp "Cargo.toml" (path_dirname h fileName)]
      else
        mkRun (Rejected DocumentOutsideWorkspace) st [Call getCwdFromActiveTextEditor_]
  end.
Proof.
  unfold getCwdFromActiveTextEditor, findCargoTomlUpToWorkspace, callFindUp,
    then_, emit, resolve, reject; cbn.
  destruct (activeTextEditor h) as [fileName|]; cbn; [|reflexivity].
  destruct (startsWith fileName (toString (rootPath h))); cbn; [|reflexivity].
  destruct (findUp h "Cargo.toml" (path_dirname h fileName)) as [found|]; cbn;
    [|reflexivity].
  now destruct (startsWith found (toString (rootPath h))).
Qed.

Lemma getCwdFromActiveTextEditor_statics (h : Host) (st : Statics) :
  statics (getCwdFromActiveTextEditor h st) = st.
Proof.
  rewrite getCwdFromActiveTextEditor_run.
  destruct (activeTextEditor h) as [f|]; [|reflexivity].
  now destruct (startsWith f (toString (rootPath h))).
Qed.

Lemma getCwdFromActiveTextEditor_outcome_indep (h : Host) (st st' : Statics) :
  outcome (getCwdFromActiveTextEditor h st) = outcome (getCwdFromActiveTextEditor h st').
Proof.
  rewrite !getCwdFromActiveTextEditor_run.
  destruct (activeTextEditor h) as [f|]; [|reflexivity].
  now destruct (startsWith f (toString (rootPath h))).
Qed.

Lemma getCwdFromActiveTextEditor_attempted (h : Host) (st : Statics) :
  attempted (trace (getCwdFromActiveTextEditor h st)) = [ActiveDocument].
Proof.
  rewrite getCwdFromActiveTextEditor_run.
  destruct (activeTextEditor h) as [f|]; [|reflexivity].
  now destruct (startsWith f (toString (rootPath h))).
Qed.

Lemma getCwdFromActiveTextEditor_writes (h : Host) (st : Statics) :
  writes (trace (getCwdFromActiveTextEditor h st)) = [].
Proof.
  rewrite getCwdFromActiveTextEditor_run.
  destruct (activeTextEditor h) as [f|]; [|reflexivity].
  now destruct (startsWith f (toString (rootPath h))).
Qed.

(** ** The three ways [cwd] can run *)

Lemma cwd_by_document (h : Host) (st : Statics) (dir : string) :
  outcome (getCwdFromActiveTextEditor h st) = Resolved dir ->
  cwd h st =
  mkRun (Resolved dir) {| previousCwd := Some dir |}
        (Call cwd_ :: trace (getCwdFromActiveTextEditor h st) ++ [SetPreviousCwd dir]).
Proof.
  intros H. unfold cwd, catch_, then_, emit, writePreviousCwd, resolve; frozen_cbn.
  rewrite H; frozen_cbn. reflexivity.
Qed.

Lemma cwd_by_fallback (h : Host) (st : Statics) (error : Error) :
  outcome (getCwdFromActiveTextEditor h st) = Rejected error ->
  cwd h st =
  let a := getCwdFromActiveTextEditor h st in
  let b := getPreviousCwd h error st in
  match outcome b with
  | Resolved dir => mkRun (Resolved dir) st (Call cwd_ :: trace a ++ trace b)
  | Rejected error' =>
      let c := checkWorkspaceCanBeUsedAsCwd h st in
      mkRun (workspace_outcome h error') st (Call cwd_ :: (trace a ++ trace b) ++ trace c)
  end.
Proof.
  intros H. pose proof (getCwdFromActiveTextEditor_statics h st) as Hst.
  pose proof (getPreviousCwd_statics h error st) as Hst'.
  unfold cwd, catch_, then_, emit; frozen_cbn.
  rewrite H; frozen_cbn. rewrite Hst; frozen_cbn.
  destruct (outcome (getPreviousCwd h error st)) as [dir|error'] eqn:Hb; frozen_cbn.
  - now rewrite Hst'.
  - rewrite Hst'. rewrite checkWorkspaceCanBeUsedAsCwd_run.
    unfold workspace_outcome, resolveRootPath, throw_, resolve, reject.
    destruct (rootPath h) as [root|]; cbn; [|reflexivity].
    now destruct (fs_access h (path_join h root "Cargo.toml")) as [thrown|[e|]].
Qed.

(** How the outcome of the workspace test and the outcome of the third
    strategy go together. *)
Lemma workspace_outcome_by_test (h : Host) (st : Statics) (error : Error) :
  match outcome (checkWorkspaceCanBeUsedAsCwd h st) with
  | Resolved true =>
      match rootPath h with
      | Some root => workspace_outcome h error = Resolved root
      | None => False
      end
  | Resolved false => workspace_outcome h error = Rejected error
  | Rejected e => workspace_outcome h error = Rejected e
  end.
Proof.
  rewrite checkWorkspaceCanBeUsedAsCwd_run. unfold workspace_outcome.
  destruct (rootPath h) as [root|]; cbn; [|reflexivity].
  now destruct (fs_access h (path_join h root "Cargo.toml")) as [thrown|[e|]].
Qed.

(** ** The fallback chain *)

(** C1.  Every run of [cwd] attempts the strategies in the order
    active document, remembered root, workspace root.  The first one that
    succeeds gives the directory returned and no later strategy is entered:
    the strategies attempted are exactly those up to the first success, or
    all three when none succeeds. *)
Theorem cwd_strategies_in_order (h : Host) (st : Statics) :
  let r := cwd h st in
  match outcome (getCwdFromActiveTextEditor h st) with
  | Resolved dir =>
      outcome r = Resolved dir /\
      attempted (trace r) = [ActiveDocument]
  | Rejected error =>
      match outcome (getPreviousCwd h error st) with
      | Resolved dir =>
          outcome r = Resolved dir /\
          attempted (trace r) = [ActiveDocument; RememberedRoot]
      | Rejected error' =>
          attempted (trace r) = [ActiveDocument; RememberedRoot; WorkspaceRoot] /\
          match outcome (checkWorkspaceCanBeUsedAsCwd h st) with
          | Resolved true =>
              match rootPath h with
              | Some root => outcome r = Resolved root
              | None => False
              end
          | Resolved false => outcome r = Rejected error'
          | Rejected e => outcome r = Rejected e
          end
      end
  end.
Proof.
  intros r; subst r.
  destruct (outcome (getCwdFromActiveTextEditor h st)) as [dir|error] eqn:Ha.
  - rewrite (cwd_by_document h st dir Ha); cbn [outcome trace attempted strategy_of].
    rewrite attempted_app, getCwdFromActiveTextEditor_attempted. split; reflexivity.
  - rewrite (cwd_by_fallback h st error Ha); cbv zeta.
    destruct (outcome (getPreviousCwd h error st)) as [dir|error'] eqn:Hb;
      cbn [outcome trace attempted strategy_of];
      rewrite ?attempted_app, getCwdFromActiveTextEditor_attempted,
        getPreviousCwd_attempted, ?checkWorkspaceCanBeUsedAsCwd_attempted.
    + split; reflexivity.
    + split; [reflexivity|]. apply workspace_outcome_by_test.
Qed.

(** With no folder open, a run that reaches the third strategy is rejected
    with the TypeError of [path.join], whatever the first strategy said. *)
Lemma cwd_without_folder (h : Host) (st : Statics) (error : Error) :
  rootPath h = None ->
  outcome (getCwdFromActiveTextEditor h st) = Rejected error ->
  remembered_usable h st = false ->
  outcome (cwd h st) = Rejected (path_join_undefined h).
Proof.
  intros Hroot Ha Hrem. rewrite (cwd_by_fallback h st error Ha); cbv zeta.
  unfold remembered_usable, accessible in Hrem.
  destruct (previousCwd st) as [dir|] eqn:Hprev.
  - rewrite (getPreviousCwd_set h error st dir Hprev); cbn [outcome].
    destruct (fs_access h (path_join h dir "Cargo.toml")) as [thrown|[err|]];
      try discriminate; cbn [outcome]; unfold workspace_outcome; now rewrite Hroot.
  - rewrite (getPreviousCwd_unset h error st Hprev); cbn [outcome].
    unfold workspace_outcome; now rewrite Hroot.
Qed.

(** C2.  The rejection of [cwd] does not always carry the error of the
    active-document strategy: with no folder open, no active editor and no
    remembered root, that strategy fails with "No active document" and
    [cwd] is rejected with the TypeError that [path.join] throws at line 95,
    inside the workspace-root strategy. *)
Theorem cwd_without_folder_rejects_with_join_error :
  rootPath Sample.no_folder = None /\
  outcome (getCwdFromActiveTextEditor Sample.no_folder initial)
    = Rejected NoActiveDocument /\
  outcome (cwd Sample.no_folder initial)
    = Rejected (path_join_undefined Sample.no_folder) /\
  path_join_undefined Sample.no_folder <> NoActiveDocument.
Proof. repeat split. discriminate. Qed.

(** C3.  [cwd] writes [previousCwd] exactly when the active-document
    strategy succeeds, and then with the directory that strategy returned;
    in every other run the field keeps its value and no write happens.  The
    remembered-root and workspace-root strategies never write it, and a field
    that was set is still set afterwards. *)
Theorem previousCwd_written_only_by_document (h : Host) (st : Statics) :
  let r := cwd h st in
  match outcome (getCwdFromActiveTextEditor h st) with
  | Resolved dir =>
      statics r = {| previousCwd := Some dir |} /\
      writes (trace r) = [SetPreviousCwd dir]
  | Rejected error =>
      statics r = st /\
      writes (trace r) = [] /\
      statics (getPreviousCwd h error st) = st /\
      writes (trace (getPreviousCwd h error st)) = []
  end /\
  statics (checkWorkspaceCanBeUsedAsCwd h st) = st /\
  writes (trace (checkWorkspaceCanBeUsedAsCwd h st)) = [] /\
  match previousCwd st with
  | Some _ => is_set (previousCwd (statics r)) = true
  | None => True
  end.
Proof.
  intros r; subst r.
  rewrite checkWorkspaceCanBeUsedAsCwd_statics, checkWorkspaceCanBeUsedAsCwd_writes.
  pose proof (checkWorkspaceCanBeUsedAsCwd_writes h st) as Hc.
  unfold writes in *.
  destruct (outcome (getCwdFromActiveTextEditor h st)) as [dir|error] eqn:Ha.
  - rewrite (cwd_by_document h st dir Ha); cbn [statics trace filter is_write].
    rewrite filter_app. fold (writes (trace (getCwdFromActiveTextEditor h st))).
    rewrite getCwdFromActiveTextEditor_writes.
    repeat split. now destruct (previousCwd st).
  - pose proof (getPreviousCwd_writes h error st) as Hw; unfold writes in Hw.
    pose proof (getCwdFromActiveTextEditor_writes h st) as Hw'; unfold writes in Hw'.
    rewrite (cwd_by_fallback h st error Ha); cbv zeta.
    rewrite getPreviousCwd_statics.
    destruct (outcome (getPreviousCwd h error st)) as [dir|error'];
      cbn [statics trace filter is_write];
      rewrite ?filter_app, ?Hw, ?Hw', ?Hc; repeat split;
      now destruct (previousCwd st).
Qed.
(** ** The active-document strategy *)

(** C4.  [getCwdFromActiveTextEditor] tests, in this order: that there is
    an active editor (else "No active document"); that the file name of its
    document starts with the workspace root (else "Current document not in
    the workspace"); that the upward search from the directory of the document
    finds a Cargo.toml (else "Cargo.toml hasn't been found"); that the path
    found starts with the workspace root (else "Cargo.toml hasn't been found
    within the workspace").  The search is not started when one of the first
    two tests fails.  A failure ends this strategy only: [cwd] goes on to the
    remembered root. *)
Theorem getCwdFromActiveTextEditor_checks_in_order (h : Host) (st : Statics) :
  let a := getCwdFromActiveTextEditor h st in
  match activeTextEditor h with
  | None =>
      outcome a = Rejected NoActiveDocument /\ searches (trace a) = []
  | Some fileName =>
      if startsWith fileName (toString (rootPath h))
      then
        searches (trace a) = [FindUp "Cargo.toml" (path_dirname h fileName)] /\
        match findUp h "Cargo.toml" (path_dirname h fileName) with
        | None => outcome a = Rejected MarkerNotFound
        | Some found =>
            if startsWith found (toString (rootPath h))
            then outcome a = Resolved (path_dirname h found)
            else outcome a = Rejected MarkerOutsideWorkspace
        end
      else
        outcome a = Rejected DocumentOutsideWorkspace /\ searches (trace a) = []
  end /\
  match outcome a with
  | Resolved _ => True
  | Rejected _ =>
      exists later,
        attempted (trace (cwd h st)) = ActiveDocument :: RememberedRoot :: later
  end.
Proof.
  intros a; subst a. split.
  - rewrite getCwdFromActiveTextEditor_run.
    destruct (activeTextEditor h) as [fileName|]; [|split; reflexivity].
    destruct (startsWith fileName (toString (rootPath h))); [|split; reflexivity].
    split; [reflexivity|]. cbn [outcome].
    destruct (findUp h "Cargo.toml" (path_dirname h fileName)) as [found|];
      [|reflexivity].
    now destruct (startsWith found (toString (rootPath h))).
  - destruct (outcome (getCwdFromActiveTextEditor h st)) as [dir|error] eqn:Ha;
      [exact I|].
    rewrite (cwd_by_fallback h st error Ha); cbv zeta.
    destruct (outcome (getPreviousCwd h error st));
      cbn [trace attempted strategy_of];
      rewrite ?attempted_app, getCwdFromActiveTextEditor_attempted,
        getPreviousCwd_attempted; eexists; reflexivity.
Qed.

(** C9.  Both workspace tests of the active-document strategy are
    comparisons of strings: a document [p] is refused as outside the
    workspace exactly when the string [p] does not begin with the string
    [rootPath] (the string "undefined" when there is no root), and likewise
    for the path the search returns.  So a
    document below "/ws-other" passes the test for the root "/ws". *)
Theorem workspace_tests_are_string_prefix (h : Host) (st : Statics) (p : string) :
  activeTextEditor h = Some p ->
  let a := getCwdFromActiveTextEditor h st in
  (outcome a = Rejected DocumentOutsideWorkspace <->
   ~ exists rest, p = (toString (rootPath h) ++ rest)%string) /\
  match findUp h "Cargo.toml" (path_dirname h p) with
  | Some found =>
      outcome a = Rejected MarkerOutsideWorkspace <->
      (exists rest, p = (toString (rootPath h) ++ rest)%string) /\
      ~ exists rest, found = (toString (rootPath h) ++ rest)%string
  | None => outcome a <> Rejected MarkerOutsideWorkspace
  end.
Proof.
  intros Hp a; subst a. rewrite getCwdFromActiveTextEditor_run, Hp.
  pose proof (startsWith_iff p (toString (rootPath h))) as Hdoc.
  destruct (startsWith p (toString (rootPath h))); cbn [outcome].
  - assert (Hin : exists rest, p = (toString (rootPath h) ++ rest)%string)
      by now apply Hdoc.
    destruct (findUp h "Cargo.toml" (path_dirname h p)) as [found|].
    + pose proof (startsWith_iff found (toString (rootPath h))) as Hfound.
      destruct (startsWith found (toString (rootPath h)));
        (split; [split; [discriminate | tauto]|]).
      * split; [discriminate|]. intros [_ H]. exfalso. apply H. now apply Hfound.
      * split; [|reflexivity]. intros _. split; [exact Hin|].
        intros H. apply Hfound in H. discriminate.
    + split; [split; [discriminate | tauto] | discriminate].
  - assert (Hout : ~ exists rest, p = (toString (rootPath h) ++ rest)%string).
    { intros H. apply Hdoc in H. discriminate. }
    split; [tauto|].
    destruct (findUp h "Cargo.toml" (path_dirname h p)); [|discriminate].
    split; [discriminate | tauto].
Qed.

Lemma workspace_tests_are_string_prefix_witness :
  activeTextEditor Sample.sibling = Some "/ws-other/src/main.rs" /\
  rootPath Sample.sibling = Some "/ws" /\
  outcome (getCwdFromActiveTextEditor Sample.sibling initial)
    <> Rejected DocumentOutsideWorkspace /\
  outcome (getCwdFromActiveTextEditor Sample.sibling initial) = Resolved "/ws-other".
Proof.
  split; [reflexivity|]. split; [reflexivity|]. split; [|reflexivity].
  intros Hrej.
  apply (proj1 (workspace_tests_are_string_prefix
                  Sample.sibling initial "/ws-other/src/main.rs" eq_refl)) in Hrej.
  apply Hrej. exists "-other/src/main.rs". reflexivity.
Defined.

(** ** The remembered root and the workspace root *)

(** C5.  With a remembered root [dir], [getPreviousCwd] makes one call of
    [fs.access], on the Cargo.toml joined to [dir], and no upward search.
    When the file can be accessed it resolves with [dir] itself; it does not
    write [previousCwd]. *)
Theorem getPreviousCwd_checks_marker_directly
    (h : Host) (error : Error) (st : Statics) (dir : string) :
  previousCwd st = Some dir ->
  let r := getPreviousCwd h error st in
  trace r = [Call getPreviousCwd_; Call checkPathExists_;
             FsAccess (path_join h dir "Cargo.toml")] /\
  searches (trace r) = [] /\
  writes (trace r) = [] /\
  statics r = st /\
  outcome r = match fs_access h (path_join h dir "Cargo.toml") with
              | AccessCallback None => Resolved dir
              | AccessCallback (Some _) => Rejected error
              | AccessThrows thrown => Rejected thrown
              end.
Proof.
  intros Hset r; subst r. rewrite (getPreviousCwd_set h error st dir Hset).
  cbn [trace statics outcome].
  repeat split.
Qed.

Lemma getPreviousCwd_checks_marker_directly_witness :
  let h := Sample.host None "/ws" Sample.crate_files in
  let st := {| previousCwd := Some "/ws/proj" |} in
  let r := getPreviousCwd h NoActiveDocument st in
  trace r = [Call getPreviousCwd_; Call checkPathExists_;
             FsAccess "/ws/proj/Cargo.toml"] /\
  searches (trace r) = [] /\
  writes (trace r) = [] /\
  statics r = st /\
  outcome r = Resolved "/ws/proj".
Proof.
  exact (getPreviousCwd_checks_marker_directly
           (Sample.host None "/ws" Sample.crate_files) NoActiveDocument
           {| previousCwd := Some "/ws/proj" |} "/ws/proj" eq_refl).
Defined.

(** C6.  Without an active document and without a remembered root, [cwd]
    resolves with the workspace root when the Cargo.toml joined to it can be
    accessed. *)
Theorem cwd_falls_back_to_workspace (h : Host) (st : Statics) (root : string) :
  activeTextEditor h = None ->
  previousCwd st = None ->
  rootPath h = Some root ->
  fs_access h (path_join h root "Cargo.toml") = AccessCallback None ->
  outcome (cwd h st) = Resolved root.
Proof.
  intros Hdoc Hprev Hroot Hmarker.
  assert (Ha : outcome (getCwdFromActiveTextEditor h st) = Rejected NoActiveDocument).
  { rewrite getCwdFromActiveTextEditor_run, Hdoc. reflexivity. }
  rewrite (cwd_by_fallback h st NoActiveDocument Ha); cbv zeta.
  rewrite (getPreviousCwd_unset h NoActiveDocument st Hprev); cbn [outcome].
  unfold workspace_outcome. now rewrite Hroot, Hmarker.
Qed.

Lemma cwd_falls_back_to_workspace_witness :
  outcome (cwd Sample.no_document initial) = Resolved "/ws".
Proof.
  apply (cwd_falls_back_to_workspace Sample.no_document initial "/ws"); reflexivity.
Defined.

(** C7.  When the active-document strategy succeeds with [dir], calling
    [cwd] twice in a row on the same host returns [dir] both times, and
    [previousCwd] is [dir] afterwards. *)
Theorem cwd_twice_same_directory (h : Host) (st : Statics) (dir : string) :
  outcome (getCwdFromActiveTextEditor h st) = Resolved dir ->
  let first := cwd h st in
  let second := cwd h (statics first) in
  outcome (getCwdFromActiveTextEditor h (statics first)) = Resolved dir /\
  outcome first = Resolved dir /\
  outcome second = Resolved dir /\
  previousCwd (statics second) = Some dir.
Proof.
  intros Ha first second; subst first second.
  assert (Ha' : outcome (getCwdFromActiveTextEditor h (statics (cwd h st)))
                = Resolved dir).
  { rewrite <- Ha. apply getCwdFromActiveTextEditor_outcome_indep. }
  split; [exact Ha'|].
  rewrite (cwd_by_document h _ dir Ha').
  rewrite (cwd_by_document h st dir Ha).
  repeat split.
Qed.

Lemma cwd_twice_same_directory_witness :
  let first := cwd Sample.in_crate initial in
  let second := cwd Sample.in_crate (statics first) in
  outcome (getCwdFromActiveTextEditor Sample.in_crate (statics first))
    = Resolved "/ws/proj" /\
  outcome first = Resolved "/ws/proj" /\
  outcome second = Resolved "/ws/proj" /\
  previousCwd (statics second) = Some "/ws/proj".
Proof.
  exact (cwd_twice_same_directory Sample.in_crate initial "/ws/proj" eq_refl).
Defined.

(** When [fs.access] reports through its callback, [checkPathExists]
    resolves: with [true] when no error is reported, with [false] when one
    is. *)
Lemma checkPathExists_callback
    (h : Host) (path : string) (st : Statics) (e : option ErrnoException) :
  fs_access h path = AccessCallback e ->
  outcome (checkPathExists h path st) = Resolved (not_ e).
Proof. intros H. now rewrite checkPathExists_run, H. Qed.

(** What [fs.access] throws is what [checkPathExists] is rejected with. *)
Lemma checkPathExists_throw (h : Host) (path : string) (st : Statics) (thrown : Error) :
  fs_access h path = AccessThrows thrown ->
  outcome (checkPathExists h path st) = Rejected thrown.
Proof. intros H. now rewrite checkPathExists_run, H. Qed.

(** On a path with a NUL character [fs.access] throws instead of calling
    back, the executor of the promise lets the exception through, and
    [checkPathExists] is rejected with it; the remembered-root strategy is
    then rejected with that exception and not with the error it was handed. *)
Lemma checkPathExists_rejects_when_access_throws :
  fs_access Sample.no_document Sample.nul_path = AccessThrows Sample.invalid_path /\
  outcome (checkPathExists Sample.no_document Sample.nul_path initial)
    = Rejected Sample.invalid_path /\
  outcome (getPreviousCwd Sample.no_document NoActiveDocument
             {| previousCwd := Some ("/ws" ++ String (ascii_of_nat 0) EmptyString) |})
    = Rejected Sample.invalid_path.
Proof. repeat split. Qed.

(** C10.  [checkPathExists] resolves with a boolean whenever [fs.access]
    reports through its callback: [true] when no error is reported, [false]
    when one is, so that an error reported by [fs.access] is never passed on.
    It is rejected only when [fs.access] itself throws on the path, and then
    with what was thrown.  Hence the remembered-root strategy is rejected
    only with the error it was handed or with such an exception, and the
    workspace test only with such an exception or, when there is no
    workspace root, with the TypeError of [path.join]. *)
Theorem checkPathExists_total_on_callback (h : Host) (path : string) (st : Statics) :
  outcome (checkPathExists h path st) =
    match fs_access h path with
    | AccessCallback None => Resolved true
    | AccessCallback (Some _) => Resolved false
    | AccessThrows thrown => Rejected thrown
    end /\
  (forall error : Error,
     match outcome (getPreviousCwd h error st) with
     | Resolved _ => True
     | Rejected e =>
         e = error \/
         exists dir, previousCwd st = Some dir /\
                     fs_access h (path_join h dir "Cargo.toml") = AccessThrows e
     end) /\
  match outcome (checkWorkspaceCanBeUsedAsCwd h st) with
  | Resolved _ => True
  | Rejected e =>
      match rootPath h with
      | Some root => fs_access h (path_join h root "Cargo.toml") = AccessThrows e
      | None => e = path_join_undefined h
      end
  end.
Proof.
  split; [|split].
  - rewrite checkPathExists_run; cbn [outcome].
    now destruct (fs_access h path) as [thrown|[e|]].
  - intros error.
    destruct (outcome (getPreviousCwd h error st)) as [dir|e] eqn:Hb; [exact I|].
    now apply getPreviousCwd_rejects in Hb.
  - rewrite checkWorkspaceCanBeUsedAsCwd_run.
    destruct (rootPath h) as [root|]; cbn [outcome]; [|reflexivity].
    now destruct (fs_access h (path_join h root "Cargo.toml")) as [thrown|[e|]].
Qed.

(** ** The sysroot of the toolchain *)

Lemma deliver_settled (events : list ChildEvent) (state : PromiseState) (thrown : bool) :
  state <> Pending -> fst (deliver events state thrown) = state.
Proof.
  revert state thrown.
  induction events as [|ev events IH]; intros state thrown Hs; cbn; [reflexivity|].
  assert (Hkeep : settle state (listener ev) = state)
    by (destruct state; [contradiction | reflexivity | reflexivity]).
  rewrite Hkeep. now apply IH.
Qed.

Lemma getRustcSysroot_promise (h : ProcessHost) :
  promise (getRustcSysroot h) =
  fst (deliver (emitted (spawn h (mkSpawn "rustc" ["--print"; "sysroot"] (process_cwd h))))
               Pending false).
Proof.
  unfold getRustcSysroot. now destruct (deliver _ Pending false).
Qed.

(** [getRustcSysroot] spawns [rustc --print sysroot] once, in the working
    directory of the process. *)
Lemma getRustcSysroot_spawns_once (h : ProcessHost) :
  spawned (getRustcSysroot h) = [mkSpawn "rustc" ["--print"; "sysroot"] (process_cwd h)].
Proof.
  unfold getRustcSysroot. now destruct (deliver _ Pending false).
Qed.

(** A process that could not be started rejects the promise. *)
Lemma getRustcSysroot_on_error (h : ProcessHost) (later : list ChildEvent) :
  emitted (spawn h (mkSpawn "rustc" ["--print"; "sysroot"] (process_cwd h)))
    = OnError :: later ->
  promise (getRustcSysroot h) = RejectedPromise.
Proof.
  intros H. rewrite getRustcSysroot_promise, H; cbn.
  now apply deliver_settled.
Qed.

(** A status other than zero rejects the promise. *)
Lemma getRustcSysroot_on_failure
    (h : ProcessHost) (code : option Z) (read : option string)
    (later : list ChildEvent) :
  emitted (spawn h (mkSpawn "rustc" ["--print"; "sysroot"] (process_cwd h)))
    = OnExit code read :: later ->
  code <> Some 0%Z ->
  promise (getRustcSysroot h) = RejectedPromise.
Proof.
  intros H Hcode. rewrite getRustcSysroot_promise, H; cbn.
  assert (Hrej : onExit code read = Rejects).
  { unfold onExit. destruct code as [[| |]|]; cbn; congruence. }
  rewrite Hrej. now apply deliver_settled.
Qed.

(** Status zero with output in the buffer resolves with the output trimmed. *)
Lemma getRustcSysroot_on_success
    (h : ProcessHost) (buffer : string) (later : list ChildEvent) :
  emitted (spawn h (mkSpawn "rustc" ["--print"; "sysroot"] (process_cwd h)))
    = OnExit (Some 0%Z) (Some buffer) :: later ->
  promise (getRustcSysroot h) = Fulfilled (trim buffer).
Proof.
  intros H. rewrite getRustcSysroot_promise, H; cbn.
  now apply deliver_settled.
Qed.

(** C8.  Status zero does not always resolve the promise: when [rustc]
    exits with status zero and [stdout.read()] gives [null], the listener of
    ['exit'] throws on [.toString()], and the promise is neither resolved
    nor rejected. *)
Theorem getRustcSysroot_exit_zero_without_output :
  emitted (spawn Sample.rustc_silent
             (mkSpawn "rustc" ["--print"; "sysroot"] "/ws"))
    = [OnExit (Some 0%Z) None] /\
  getRustcSysroot Sample.rustc_silent =
    mkSysrootRun Pending true [mkSpawn "rustc" ["--print"; "sysroot"] "/ws"].
Proof. split; reflexivity. Qed.

(** ** The scenarios of the specification *)

Example scenario_crate_below_workspace :
  cwd Sample.in_crate initial =
  mkRun (Resolved "/ws/proj") {| previousCwd := Some "/ws/proj" |}
        [Call cwd_; Call getCwdFromActiveTextEditor_; Call findCargoTomlUpToWorkspace_;
         FindUp "Cargo.toml" "/ws/proj/src"; SetPreviousCwd "/ws/proj"].
Proof. reflexivity. Qed.

Example scenario_remembered_root_reused :
  let first := cwd Sample.in_crate initial in
  let elsewhere := Sample.host (Some "/ws/other.rs") "/ws" Sample.crate_files in
  let second := cwd elsewhere (statics first) in
  outcome second = Resolved "/ws/proj" /\
  attempted (trace second) = [ActiveDocument; RememberedRoot].
Proof. split; reflexivity. Qed.

Example scenario_stale_remembered_root :
  let gone := Sample.host None "/ws" ["/ws/Cargo.toml"] in
  let r := cwd gone {| previousCwd := Some "/ws/proj" |} in
  outcome r = Resolved "/ws" /\
  attempted (trace r) = [ActiveDocument; RememberedRoot; WorkspaceRoot] /\
  statics r = {| previousCwd := Some "/ws/proj" |}.
Proof. repeat split. Qed.

Example scenario_total_failure :
  outcome (cwd Sample.nothing initial) = Rejected NoActiveDocument.
Proof. reflexivity. Qed.

Example scenario_rustc_prints_sysroot :
  promise (getRustcSysroot Sample.rustc_ok) = Fulfilled "/opt/rust".
Proof. reflexivity. Qed.

Example scenario_no_folder :
  outcome (cwd Sample.no_folder initial) = Rejected Sample.join_undefined.
Proof. reflexivity. Qed.

Example scenario_rustc_never_exits :
  getRustcSysroot Sample.rustc_hangs =
  mkSysrootRun Pending false [mkSpawn "rustc" ["--print"; "sysroot"] "/ws"].
Proof. reflexivity. Qed.

Example scenario_trim_beyond_ascii :
  let nbsp := String (ascii_of_nat 194) (String (ascii_of_nat 160) EmptyString) in
  trim (nbsp ++ " /opt/rust" ++ nbsp ++ String Sample.ok_newline EmptyString)
  = "/opt/rust".
Proof. reflexivity. Qed.

(** * Further properties of the module *)

(** ** The outcome of [cwd] in one equation *)

Lemma getCwdFromActiveTextEditor_trace_indep (h : Host) (st st' : Statics) :
  trace (getCwdFromActiveTextEditor h st) = trace (getCwdFromActiveTextEditor h st').
Proof.
  rewrite !getCwdFromActiveTextEditor_run.
  destruct (activeTextEditor h) as [f|]; [|reflexivity].
  now destruct (startsWith f (toString (rootPath h))).
Qed.

Lemma getPreviousCwd_outcome (h : Host) (error : Error) (st : Statics) :
  outcome (getPreviousCwd h error st) =
  match previousCwd st with
  | Some dir =>
      match fs_access h (path_join h dir "Cargo.toml") with
      | AccessThrows thrown => Rejected thrown
      | AccessCallback None => Resolved dir
      | AccessCallback (Some _) => Rejected error
      end
  | None => Rejected error
  end.
Proof.
  destruct (previousCwd st) as [dir|] eqn:H.
  - now rewrite (getPreviousCwd_set h error st dir H).
  - now rewrite (getPreviousCwd_unset h error st H).
Qed.

Lemma getPreviousCwd_resolved_iff (h : Host) (error : Error) (st : Statics) (dir : string) :
  outcome (getPreviousCwd h error st) = Resolved dir <->
  previousCwd st = Some dir /\ remembered_usable h st = true.
Proof.
  rewrite getPreviousCwd_outcome. unfold remembered_usable, accessible.
  destruct (previousCwd st) as [d|].
  - destruct (fs_access h (path_join h d "Cargo.toml")) as [thrown|[e|]];
      split; try discriminate; try (intros [_ H]; discriminate).
    + intros H. split; [congruence | reflexivity].
    + intros [H _]. congruence.
  - split; [discriminate | intros [H _]; discriminate].
Qed.

Lemma workspace_outcome_resolved_iff (h : Host) (error : Error) (dir : string) :
  workspace_outcome h error = Resolved dir <->
  rootPath h = Some dir /\ workspace_usable h = true.
Proof.
  unfold workspace_outcome, workspace_usable, accessible.
  destruct (rootPath h) as [root|].
  - destruct (fs_access h (path_join h root "Cargo.toml")) as [thrown|[e|]];
      split; try discriminate; try (intros [_ H]; discriminate).
    + intros H. split; [congruence | reflexivity].
    + intros [H _]. congruence.
  - split; [discriminate | intros [H _]; discriminate].
Qed.

Lemma cwd_outcome (h : Host) (st : Statics) :
  outcome (cwd h st) =
  match outcome (getCwdFromActiveTextEditor h st) with
  | Resolved dir => Resolved dir
  | Rejected error =>
      match outcome (getPreviousCwd h error st) with
      | Resolved dir => Resolved dir
      | Rejected error' => workspace_outcome h error'
      end
  end.
Proof.
  destruct (outcome (getCwdFromActiveTextEditor h st)) as [dir|error] eqn:Ha.
  - now rewrite (cwd_by_document h st dir Ha).
  - rewrite (cwd_by_fallback h st error Ha); cbv zeta.
    now destruct (outcome (getPreviousCwd h error st)).
Qed.

Lemma cwd_statics (h : Host) (st : Statics) :
  statics (cwd h st) =
  match outcome (getCwdFromActiveTextEditor h st) with
  | Resolved dir => {| previousCwd := Some dir |}
  | Rejected _ => st
  end.
Proof.
  destruct (outcome (getCwdFromActiveTextEditor h st)) as [dir|error] eqn:Ha.
  - now rewrite (cwd_by_document h st dir Ha).
  - rewrite (cwd_by_fallback h st error Ha); cbv zeta.
    now destruct (outcome (getPreviousCwd h error st)).
Qed.

Lemma settled_cases {A : Type} (r : settled Error A) :
  (exists a, r = Resolved a) \/ (exists e, r = Rejected e).
Proof. destruct r; eauto. Qed.

(** X1.  [cwd] is rejected exactly when all three strategies fail: the
    active-document strategy is rejected, the remembered root is unset or its
    Cargo.toml cannot be accessed, and there is no workspace root whose
    Cargo.toml can be accessed.  In particular a workspace root holding a
    Cargo.toml that can be accessed always gives a directory.  (The reason
    of the rejection is not always that of the first strategy.) *)
Theorem cwd_rejected_iff_all_fail (h : Host) (st : Statics) :
  (exists e, outcome (cwd h st) = Rejected e) <->
  (exists e1, outcome (getCwdFromActiveTextEditor h st) = Rejected e1) /\
  remembered_usable h st = false /\
  workspace_usable h = false.
Proof.
  rewrite cwd_outcome.
  destruct (outcome (getCwdFromActiveTextEditor h st)) as [dir|error].
  - split; [intros [e H]; discriminate | intros [[e H] _]; discriminate].
  - destruct (settled_cases (outcome (getPreviousCwd h error st)))
      as [[dir Hb] | [error' Hb]]; rewrite Hb.
    + apply getPreviousCwd_resolved_iff in Hb as [_ Hb].
      split; [intros [e H]; discriminate | intros [_ [H _]]; congruence].
    + assert (Hrem : remembered_usable h st = false).
      { destruct (remembered_usable h st) eqn:Hu; [|reflexivity].
        unfold remembered_usable in Hu.
        destruct (previousCwd st) as [d|] eqn:Hp; [|discriminate].
        assert (Hres : outcome (getPreviousCwd h error st) = Resolved d)
          by (apply getPreviousCwd_resolved_iff; split;
              [exact Hp | unfold remembered_usable; now rewrite Hp]).
        congruence. }
      destruct (settled_cases (workspace_outcome h error')) as [[dir Hc] | [e Hc]];
        rewrite Hc.
      * apply workspace_outcome_resolved_iff in Hc as [_ Hc].
        split; [intros [e H]; discriminate | intros [_ [_ H]]; congruence].
      * split; [|intros _; now exists e].
        intros _. split; [now exists error|]. split; [exact Hrem|].
        destruct (workspace_usable h) eqn:Hu; [|reflexivity].
        unfold workspace_usable in Hu.
        destruct (rootPath h) as [root|] eqn:Hroot; [|discriminate].
        assert (Hres : workspace_outcome h error' = Resolved root)
          by (apply workspace_outcome_resolved_iff; split;
              [exact Hroot | unfold workspace_usable; now rewrite Hroot]).
        congruence.
Qed.

(** X2.  A directory returned by [cwd] has one of three origins: it is the
    directory the active-document strategy resolved; or that strategy failed
    and it is the value of [previousCwd], whose Cargo.toml can be accessed; or
    both failed and it is the workspace root, whose Cargo.toml can be
    accessed. *)
Theorem cwd_resolved_origin (h : Host) (st : Statics) (dir : string) :
  outcome (cwd h st) = Resolved dir ->
  outcome (getCwdFromActiveTextEditor h st) = Resolved dir \/
  (exists e, outcome (getCwdFromActiveTextEditor h st) = Rejected e) /\
  (previousCwd st = Some dir /\ remembered_usable h st = true \/
   remembered_usable h st = false /\ rootPath h = Some dir /\
   workspace_usable h = true).
Proof.
  rewrite cwd_outcome.
  destruct (outcome (getCwdFromActiveTextEditor h st)) as [d|error].
  - intros H; left; exact H.
  - intros H; right. split; [now exists error|].
    destruct (settled_cases (outcome (getPreviousCwd h error st)))
      as [[d Hb] | [error' Hb]]; rewrite Hb in H.
    + left. apply (getPreviousCwd_resolved_iff h error st). congruence.
    + right. apply workspace_outcome_resolved_iff in H as [Hroot Hws].
      repeat split; try assumption.
      destruct (remembered_usable h st) eqn:Hu; [|reflexivity].
      unfold remembered_usable in Hu.
      destruct (previousCwd st) as [d|] eqn:Hp; [|discriminate].
      assert (Hres : outcome (getPreviousCwd h error st) = Resolved d)
        by (apply getPreviousCwd_resolved_iff; split;
            [exact Hp | unfold remembered_usable; now rewrite Hp]).
      congruence.
Qed.

Lemma cwd_resolved_origin_witness :
  outcome (getCwdFromActiveTextEditor Sample.no_document initial) = Resolved "/ws" \/
  (exists e, outcome (getCwdFromActiveTextEditor Sample.no_document initial) = Rejected e) /\
  (previousCwd initial = Some "/ws" /\ remembered_usable Sample.no_document initial = true \/
   remembered_usable Sample.no_document initial = false /\
   rootPath Sample.no_document = Some "/ws" /\
   workspace_usable Sample.no_document = true).
Proof.
  apply (cwd_resolved_origin Sample.no_document initial "/ws"). reflexivity.
Defined.

(** X16.  When a folder is open and [fs.access] does not throw on the two
    Cargo.toml paths [cwd] asks about, a rejection of [cwd] carries the error
    of the active-document strategy. *)
Theorem cwd_rejects_with_document_error
    (h : Host) (st : Statics) (root : string) (e : Error) :
  rootPath h = Some root ->
  access_throws h (path_join h root "Cargo.toml") = false ->
  match previousCwd st with
  | Some dir => access_throws h (path_join h dir "Cargo.toml") = false
  | None => True
  end ->
  outcome (cwd h st) = Rejected e ->
  outcome (getCwdFromActiveTextEditor h st) = Rejected e.
Proof.
  intros Hroot Hws Hrem Hr. rewrite cwd_outcome in Hr.
  destruct (outcome (getCwdFromActiveTextEditor h st)) as [dir|error] eqn:Ha;
    [discriminate|].
  rewrite getPreviousCwd_outcome in Hr.
  unfold workspace_outcome, access_throws in *. rewrite Hroot in Hr.
  destruct (fs_access h (path_join h root "Cargo.toml")) as [thrown|[err|]];
    [discriminate| |];
    (destruct (previousCwd st) as [dir|];
     [destruct (fs_access h (path_join h dir "Cargo.toml")) as [thrown|[err'|]];
      [discriminate| |]|]); congruence.
Qed.

Lemma cwd_rejects_with_document_error_witness :
  outcome (cwd Sample.nothing initial) = Rejected NoActiveDocument /\
  outcome (getCwdFromActiveTextEditor Sample.nothing initial) = Rejected NoActiveDocument.
Proof.
  split; [reflexivity|].
  apply (cwd_rejects_with_document_error Sample.nothing initial "/ws" NoActiveDocument);
    first [reflexivity | exact I].
Defined.

(** X3.  When the active-document strategy resolves a directory, there is
    an active document whose file name starts with the workspace root, the
    search from the directory of the document found a Cargo.toml whose path
    starts with the workspace root, and the directory resolved is the
    directory of that path.  (Without a workspace root the tests are made
    against the string "undefined".) *)
Theorem getCwdFromActiveTextEditor_resolved (h : Host) (st : Statics) (dir : string) :
  outcome (getCwdFromActiveTextEditor h st) = Resolved dir ->
  exists fileName found,
    activeTextEditor h = Some fileName /\
    startsWith fileName (toString (rootPath h)) = true /\
    findUp h "Cargo.toml" (path_dirname h fileName) = Some found /\
    startsWith found (toString (rootPath h)) = true /\
    dir = path_dirname h found.
Proof.
  rewrite getCwdFromActiveTextEditor_run.
  destruct (activeTextEditor h) as [fileName|]; [|discriminate].
  destruct (startsWith fileName (toString (rootPath h))) eqn:Hdoc; [|discriminate].
  cbn [outcome].
  destruct (findUp h "Cargo.toml" (path_dirname h fileName)) as [found|] eqn:Hfind;
    [|discriminate].
  destruct (startsWith found (toString (rootPath h))) eqn:Hfound; [|discriminate].
  intros H. exists fileName, found. repeat split; try assumption. congruence.
Qed.

Lemma getCwdFromActiveTextEditor_resolved_witness :
  exists fileName found,
    activeTextEditor Sample.in_crate = Some fileName /\
    startsWith fileName (toString (rootPath Sample.in_crate)) = true /\
    findUp Sample.in_crate "Cargo.toml" (path_dirname Sample.in_crate fileName)
      = Some found /\
    startsWith found (toString (rootPath Sample.in_crate)) = true /\
    "/ws/proj" = path_dirname Sample.in_crate found.
Proof.
  apply (getCwdFromActiveTextEditor_resolved Sample.in_crate initial "/ws/proj").
  reflexivity.
Defined.

(** X4.  Calling [cwd] again on an unchanged host repeats the first call
    entirely: the same outcome, the same value of [previousCwd] and the same
    calls, although the first call may have written [previousCwd]. *)
Theorem cwd_again_same_run (h : Host) (st : Statics) :
  cwd h (statics (cwd h st)) = cwd h st.
Proof.
  destruct (outcome (getCwdFromActiveTextEditor h st)) as [dir|error] eqn:Ha.
  - assert (Ha' : outcome (getCwdFromActiveTextEditor h (statics (cwd h st)))
                  = Resolved dir).
    { rewrite <- Ha. apply getCwdFromActiveTextEditor_outcome_indep. }
    rewrite (cwd_by_document h _ dir Ha'), (cwd_by_document h st dir Ha).
    now rewrite (getCwdFromActiveTextEditor_trace_indep h _ st).
  - now rewrite cwd_statics, Ha.
Qed.

(** ** Calls in sequence *)

(** X5.  A directory resolved from a document is used again by the next
    call when the active-document strategy then fails and the Cargo.toml of
    that directory can still be accessed: the second call returns it from
    the remembered root and does not look at the workspace root. *)
Theorem remembered_root_reused (h1 h2 : Host) (st : Statics) (dir : string) (e : Error) :
  outcome (getCwdFromActiveTextEditor h1 st) = Resolved dir ->
  outcome (getCwdFromActiveTextEditor h2 st) = Rejected e ->
  fs_access h2 (path_join h2 dir "Cargo.toml") = AccessCallback None ->
  let second := cwd h2 (statics (cwd h1 st)) in
  outcome second = Resolved dir /\
  attempted (trace second) = [ActiveDocument; RememberedRoot] /\
  accesses (trace second) = [FsAccess (path_join h2 dir "Cargo.toml")].
Proof.
  intros H1 H2 Hmarker second; subst second.
  rewrite cwd_statics, H1.
  set (st1 := {| previousCwd := Some dir |}).
  assert (H2' : outcome (getCwdFromActiveTextEditor h2 st1) = Rejected e).
  { rewrite <- H2. apply getCwdFromActiveTextEditor_outcome_indep. }
  rewrite (cwd_by_fallback h2 st1 e H2'); cbv zeta.
  rewrite (getPreviousCwd_set h2 e st1 dir eq_refl), Hmarker.
  cbn [outcome trace not_ attempted strategy_of].
  rewrite attempted_app, getCwdFromActiveTextEditor_attempted.
  repeat split.
  unfold accesses. cbn [filter is_access]. rewrite filter_app.
  rewrite getCwdFromActiveTextEditor_run.
  destruct (activeTextEditor h2) as [f|]; [|reflexivity].
  now destruct (startsWith f (toString (rootPath h2))).
Qed.

Lemma remembered_root_reused_witness :
  let elsewhere := Sample.host (Some "/ws/other.rs") "/ws" Sample.crate_files in
  let second := cwd elsewhere (statics (cwd Sample.in_crate initial)) in
  outcome second = Resolved "/ws/proj" /\
  attempted (trace second) = [ActiveDocument; RememberedRoot] /\
  accesses (trace second) = [FsAccess "/ws/proj/Cargo.toml"].
Proof.
  exact (remembered_root_reused Sample.in_crate
           (Sample.host (Some "/ws/other.rs") "/ws" Sample.crate_files)
           initial "/ws/proj" MarkerNotFound eq_refl eq_refl eq_refl).
Defined.

(** X6.  A remembered root whose Cargo.toml cannot be accessed is passed
    over but not forgotten: that call answers from the workspace root or is
    rejected, and a later call for which the Cargo.toml can be accessed again
    returns the remembered root. *)
Theorem stale_root_is_kept
    (h2 h3 : Host) (st : Statics) (dir : string) (e2 e3 : Error) :
  previousCwd st = Some dir ->
  outcome (getCwdFromActiveTextEditor h2 st) = Rejected e2 ->
  accessible h2 (path_join h2 dir "Cargo.toml") = false ->
  outcome (getCwdFromActiveTextEditor h3 st) = Rejected e3 ->
  fs_access h3 (path_join h3 dir "Cargo.toml") = AccessCallback None ->
  outcome (cwd h2 st) =
    workspace_outcome h2
      match fs_access h2 (path_join h2 dir "Cargo.toml") with
      | AccessThrows thrown => thrown
      | AccessCallback _ => e2
      end /\
  previousCwd (statics (cwd h2 st)) = Some dir /\
  outcome (cwd h3 (statics (cwd h2 st))) = Resolved dir.
Proof.
  intros Hprev H2 Hstale H3 Hback.
  assert (Hst : statics (cwd h2 st) = st) by now rewrite cwd_statics, H2.
  rewrite Hst. split; [|split; [exact Hprev|]].
  - rewrite cwd_outcome, H2, getPreviousCwd_outcome, Hprev.
    unfold accessible in Hstale.
    destruct (fs_access h2 (path_join h2 dir "Cargo.toml")) as [thrown|[err|]];
      [reflexivity | reflexivity | discriminate].
  - now rewrite cwd_outcome, H3, getPreviousCwd_outcome, Hprev, Hback.
Qed.

Lemma stale_root_is_kept_witness :
  let gone := Sample.host None "/ws" ["/ws/Cargo.toml"] in
  let back := Sample.host None "/ws" ["/ws/Cargo.toml"; "/ws/proj/Cargo.toml"] in
  let st := {| previousCwd := Some "/ws/proj" |} in
  outcome (cwd gone st) = Resolved "/ws" /\
  previousCwd (statics (cwd gone st)) = Some "/ws/proj" /\
  outcome (cwd back (statics (cwd gone st))) = Resolved "/ws/proj".
Proof.
  apply (stale_root_is_kept
           (Sample.host None "/ws" ["/ws/Cargo.toml"])
           (Sample.host None "/ws" ["/ws/Cargo.toml"; "/ws/proj/Cargo.toml"])
           {| previousCwd := Some "/ws/proj" |} "/ws/proj"
           NoActiveDocument NoActiveDocument);
    reflexivity.
Defined.

Lemma cwd_each_invariant (hosts : list Host) :
  forall (st : Statics) (dir : string),
    previousCwd (cwd_each hosts st) = Some dir ->
    previousCwd st = Some dir \/
    exists h, In h hosts /\
              outcome (getCwdFromActiveTextEditor h initial) = Resolved dir.
Proof.
  induction hosts as [|h hosts IH]; intros st dir Hend.
  - left; exact Hend.
  - change (previousCwd (cwd_each hosts (statics (cwd h st))) = Some dir) in Hend.
    destruct (IH _ _ Hend) as [Hhere | [h' [Hin Hdoc]]].
    + rewrite cwd_statics in Hhere.
      destruct (outcome (getCwdFromActiveTextEditor h st)) as [d|e] eqn:Ha.
      * right. exists h. split; [now left|].
        rewrite (getCwdFromActiveTextEditor_outcome_indep h initial st), Ha.
        cbn in Hhere. congruence.
      * left; exact Hhere.
    + right. exists h'. split; [now right | exact Hdoc].
Qed.

(** X7.  Starting with [previousCwd] undefined, after any sequence of calls
    of [cwd], on hosts that may differ from call to call, a value held by
    [previousCwd] is a directory the active-document strategy resolved on
    one of those hosts: the workspace root and the remembered root never
    enter the field by the two fallbacks. *)
Theorem previousCwd_comes_from_a_document (hosts : list Host) (dir : string) :
  previousCwd (cwd_each hosts initial) = Some dir ->
  exists h, In h hosts /\
            outcome (getCwdFromActiveTextEditor h initial) = Resolved dir.
Proof.
  intros Hend.
  destruct (cwd_each_invariant hosts initial dir Hend) as [Hinit | Hdoc].
  - discriminate.
  - exact Hdoc.
Qed.

Lemma previousCwd_comes_from_a_document_witness :
  exists h, In h [Sample.no_document; Sample.in_crate; Sample.nothing] /\
            outcome (getCwdFromActiveTextEditor h initial) = Resolved "/ws/proj".
Proof.
  apply (previousCwd_comes_from_a_document
           [Sample.no_document; Sample.in_crate; Sample.nothing] "/ws/proj").
  reflexivity.
Defined.

(** ** What [cwd] asks of the host *)

(** X8.  One call of [cwd] searches upwards at most once and calls
    [fs.access] at most twice; every such call is for a file named
    Cargo.toml; and when the active-document strategy succeeds, [fs.access]
    is not called at all. *)
Theorem cwd_host_calls (h : Host) (st : Statics) :
  let t := trace (cwd h st) in
  length (searches t) <= 1 /\
  length (accesses t) <= 2 /\
  Forall (asks_for_manifest h) t /\
  match outcome (getCwdFromActiveTextEditor h st) with
  | Resolved _ => accesses t = []
  | Rejected _ => True
  end.
Proof.
  intros t; subst t. unfold searches, accesses.
  destruct (outcome (getCwdFromActiveTextEditor h st)) as [dir|error] eqn:Ha.
  - rewrite (cwd_by_document h st dir Ha); cbn [trace].
    rewrite getCwdFromActiveTextEditor_run.
    destruct (activeTextEditor h) as [f|];
      [destruct (startsWith f (toString (rootPath h)))|]; cbn;
      (repeat split; [lia | lia | repeat constructor]).
  - rewrite (cwd_by_fallback h st error Ha); cbv zeta.
    assert (Hb : trace (getPreviousCwd h error st) = [Call getPreviousCwd_] \/
                 exists d, trace (getPreviousCwd h error st) =
                   [Call getPreviousCwd_; Call checkPathExists_;
                    FsAccess (path_join h d "Cargo.toml")]).
    { destruct (previousCwd st) as [d|] eqn:Hp.
      - right. exists d. now rewrite (getPreviousCwd_set h error st d Hp).
      - left. now rewrite (getPreviousCwd_unset h error st Hp). }
    rewrite checkWorkspaceCanBeUsedAsCwd_run.
    rewrite getCwdFromActiveTextEditor_run.
    destruct (outcome (getPreviousCwd h error st));
      destruct Hb as [-> | [d ->]];
      destruct (rootPath h) as [root|];
      (destruct (activeTextEditor h) as [f|];
       [destruct (startsWith f _)|]); cbn;
      (repeat split; [lia | lia | repeat constructor; cbn; eauto]).
Qed.

(** ** The sysroot of the toolchain, further *)

Lemma trimStart_first_bounded (n : nat) :
  forall (s : string) (c : ascii),
    String.length s <= n ->
    firstChar (trimStart s) = Some c -> isWhiteSpace c = false.
Proof.
  induction n as [|n IH]; intros s c Hlen.
  - destruct s; [discriminate | cbn in Hlen; lia].
  - destruct s as [|a s1]; [discriminate|].
    cbn in Hlen. cbn [trimStart].
    destruct (isWhiteSpace a) eqn:Ha; [apply IH; lia|].
    destruct s1 as [|b s2]; [cbn; intros H; now injection H as <-|].
    cbn in Hlen.
    destruct (isWhiteSpace2 a b); [apply IH; lia|].
    destruct s2 as [|d s3]; [cbn; intros H; now injection H as <-|].
    cbn in Hlen.
    destruct (isWhiteSpace3 a b d); [apply IH; lia|].
    cbn. intros H. now injection H as <-.
Qed.

Lemma trimStart_first (s : string) (c : ascii) :
  firstChar (trimStart s) = Some c -> isWhiteSpace c = false.
Proof. apply (trimStart_first_bounded (String.length s)). lia. Qed.

Lemma trimEnd_step (c : ascii) (rest : string) :
  trimEnd (String c rest) =
  if isSpaceChar (String c (trimEnd rest)) then EmptyString
  else String c (trimEnd rest).
Proof. reflexivity. Qed.

Lemma trimEnd_first (s : string) (c : ascii) :
  firstChar (trimEnd s) = Some c -> firstChar s = Some c.
Proof.
  destruct s as [|a s]; [discriminate|].
  rewrite trimEnd_step.
  destruct (isSpaceChar (String a (trimEnd s))); [discriminate | exact (fun H => H)].
Qed.

Lemma lastChar_none (s : string) : lastChar s = None -> s = EmptyString.
Proof.
  destruct s as [|a s]; [reflexivity|]. cbn.
  destruct (lastChar s); discriminate.
Qed.

Lemma trimEnd_last (s : string) (c : ascii) :
  lastChar (trimEnd s) = Some c -> isWhiteSpace c = false.
Proof.
  induction s as [|a s IH]; [discriminate|].
  rewrite trimEnd_step.
  destruct (isSpaceChar (String a (trimEnd s))) eqn:Hk; [discriminate|].
  cbn [lastChar].
  destruct (lastChar (trimEnd s)) as [l|] eqn:Hl.
  - exact IH.
  - apply lastChar_none in Hl. rewrite Hl in Hk. cbn in Hk.
    intros H. now injection H as <-.
Qed.

Lemma trimStart_blank (s : string) :
  allWhiteSpace s = true -> trimStart s = EmptyString.
Proof.
  induction s as [|a s IH]; [reflexivity|].
  cbn [allWhiteSpace trimStart]. intros H.
  apply andb_prop in H as [Ha Hs]. rewrite Ha. now apply IH.
Qed.

Lemma trim_blank (s : string) :
  allWhiteSpace s = true -> trim s = EmptyString.
Proof. intros H. unfold trim. now rewrite (trimStart_blank s H). Qed.

(** What each listener does, by the event it receives. *)
Lemma listener_cases (ev : ChildEvent) :
  listener ev = Throws /\ silent_exit ev \/
  listener ev = Rejects /\ rejecting ev \/
  exists buffer, listener ev = Resolves (trim buffer) /\
                 ev = OnExit (Some 0%Z) (Some buffer).
Proof.
  unfold silent_exit, rejecting.
  destruct ev as [|code read]; cbn; [right; left; split; [reflexivity | now left]|].
  unfold onExit.
  destruct code as [[|p|p]|]; cbn.
  - destruct read as [buffer|]; [right; right; now exists buffer | now left].
  - right; left. split; [reflexivity|]. right. do 2 eexists.
    split; [reflexivity | discriminate].
  - right; left. split; [reflexivity|]. right. do 2 eexists.
    split; [reflexivity | discriminate].
  - right; left. split; [reflexivity|]. right. do 2 eexists.
    split; [reflexivity | discriminate].
Qed.

Lemma silent_exit_throws (ev : ChildEvent) : silent_exit ev -> listener ev = Throws.
Proof. unfold silent_exit. now intros ->. Qed.

Lemma rejecting_rejects (ev : ChildEvent) : rejecting ev -> listener ev = Rejects.
Proof.
  intros [-> | [code [read [-> Hcode]]]]; [reflexivity|].
  cbn. unfold onExit. destruct code as [[|p|p]|]; cbn; congruence.
Qed.

Lemma deliver_pending_iff (events : list ChildEvent) :
  forall thrown,
    fst (deliver events Pending thrown) = Pending <-> Forall silent_exit events.
Proof.
  induction events as [|ev events IH]; intros thrown; cbn.
  - split; [constructor | reflexivity].
  - destruct (listener_cases ev) as [[Hl Hs] | [[Hl Hr] | [buffer [Hl Hev]]]];
      rewrite Hl; cbn.
    + rewrite IH. split; [now constructor | now inversion 1].
    + rewrite deliver_settled by discriminate.
      split; [discriminate|]. inversion 1 as [|? ? Hs ?]; subst.
      apply silent_exit_throws in Hs. congruence.
    + rewrite deliver_settled by discriminate.
      split; [discriminate|]. inversion 1 as [|? ? Hs ?]; subst.
      apply silent_exit_throws in Hs. congruence.
Qed.

Lemma deliver_rejected_iff (events : list ChildEvent) :
  forall thrown,
    fst (deliver events Pending thrown) = RejectedPromise <->
    exists before ev after,
      events = (before ++ ev :: after)%list /\
      Forall silent_exit before /\ rejecting ev.
Proof.
  induction events as [|ev events IH]; intros thrown; cbn.
  - split; [discriminate|].
    intros [before [ev [after [H _]]]]. now destruct before.
  - destruct (listener_cases ev) as [[Hl Hs] | [[Hl Hr] | [buffer [Hl Hev]]]];
      rewrite Hl; cbn.
    + rewrite IH. split.
      * intros [before [ev' [after [-> [Hb Hr]]]]].
        exists (ev :: before), ev', after. repeat split; [now constructor | exact Hr].
      * intros [before [ev' [after [Heq [Hb Hr]]]]].
        destruct before as [|b before]; cbn in Heq; injection Heq as <- ->.
        -- apply rejecting_rejects in Hr. congruence.
        -- exists before, ev', after. repeat split; [now inversion Hb | exact Hr].
    + rewrite deliver_settled by discriminate.
      split; [|reflexivity]. intros _.
      exists [], ev, events. repeat split; [constructor | exact Hr].
    + rewrite deliver_settled by discriminate.
      split; [discriminate|].
      intros [before [ev' [after [Heq [Hb Hr]]]]].
      destruct before as [|b before]; cbn in Heq; injection Heq as <- ->.
      * apply rejecting_rejects in Hr. congruence.
      * inversion Hb as [|? ? Hs ?]; subst.
        apply silent_exit_throws in Hs. congruence.
Qed.

Lemma deliver_fulfilled (events : list ChildEvent) :
  forall thrown v,
    fst (deliver events Pending thrown) = Fulfilled v ->
    exists buffer, v = trim buffer.
Proof.
  induction events as [|ev events IH]; intros thrown v; cbn; [discriminate|].
  destruct (listener_cases ev) as [[Hl Hs] | [[Hl Hr] | [buffer [Hl Hev]]]];
    rewrite Hl; cbn.
  - apply IH.
  - rewrite deliver_settled by discriminate. discriminate.
  - rewrite deliver_settled by discriminate.
    intros H. exists buffer. congruence.
Qed.

(** X9.  The promise of [getRustcSysroot] is rejected exactly when the
    first event whose listener does not throw is ['error'] or an ['exit']
    with a status other than the number zero, the [null] status of a process
    ended by a signal included.  It stays unsettled exactly when every event
    emitted is an ['exit'] with status zero at which [stdout.read()] gives
    [null]: so also when the process emits nothing. *)
Theorem getRustcSysroot_rejected_iff (h : ProcessHost) :
  let events :=
    emitted (spawn h (mkSpawn "rustc" ["--print"; "sysroot"] (process_cwd h))) in
  (promise (getRustcSysroot h) = RejectedPromise <->
   exists before ev after,
     events = (before ++ ev :: after)%list /\
     Forall silent_exit before /\ rejecting ev) /\
  (promise (getRustcSysroot h) = Pending <-> Forall silent_exit events).
Proof.
  intros events; subst events. rewrite getRustcSysroot_promise.
  split; [apply deliver_rejected_iff | apply deliver_pending_iff].
Qed.

(** X10.  A sysroot that [getRustcSysroot] resolves with neither begins
    nor ends with a white-space character (TAB, LF, VT, FF, CR, SP). *)
Theorem getRustcSysroot_resolved_trimmed (h : ProcessHost) (sysroot : string) :
  promise (getRustcSysroot h) = Fulfilled sysroot ->
  (forall c, firstChar sysroot = Some c -> isWhiteSpace c = false) /\
  (forall c, lastChar sysroot = Some c -> isWhiteSpace c = false).
Proof.
  rewrite getRustcSysroot_promise. intros H.
  apply deliver_fulfilled in H as [buffer ->].
  unfold trim. split; intros c Hc.
  - apply trimEnd_first in Hc. now apply trimStart_first in Hc.
  - now apply trimEnd_last in Hc.
Qed.

Lemma getRustcSysroot_resolved_trimmed_witness :
  (forall c, firstChar "/opt/rust" = Some c -> isWhiteSpace c = false) /\
  (forall c, lastChar "/opt/rust" = Some c -> isWhiteSpace c = false).
Proof.
  apply (getRustcSysroot_resolved_trimmed Sample.rustc_ok "/opt/rust").
  reflexivity.
Defined.

(** X11.  When [rustc] exits with status zero and the output read consists
    of white space only (the empty output included), the promise is not
    rejected: it resolves with the empty string. *)
Theorem getRustcSysroot_blank_output
    (h : ProcessHost) (buffer : string) (later : list ChildEvent) :
  emitted (spawn h (mkSpawn "rustc" ["--print"; "sysroot"] (process_cwd h)))
    = OnExit (Some 0%Z) (Some buffer) :: later ->
  allWhiteSpace buffer = true ->
  promise (getRustcSysroot h) = Fulfilled EmptyString.
Proof.
  intros Hchild Hblank.
  rewrite getRustcSysroot_promise, Hchild; cbn.
  rewrite deliver_settled by discriminate.
  now rewrite (trim_blank buffer Hblank).
Qed.

Lemma getRustcSysroot_blank_output_witness :
  let blank :=
    mkProcessHost "/ws"
      (fun _ => mkChild [OnExit (Some 0%Z)
                           (Some (String Sample.ok_newline EmptyString))]) in
  promise (getRustcSysroot blank) = Fulfilled EmptyString.
Proof.
  intros blank.
  apply (getRustcSysroot_blank_output blank
           (String Sample.ok_newline EmptyString) [] eq_refl).
  reflexivity.
Defined.

(** ** The configured tool paths *)

Lemma or_literal_eq (a : option string) (literal : string) :
  or_literal a literal =
  match a with
  | Some s => if String.eqb s "" then literal else s
  | None => literal
  end.
Proof.
  unfold or_literal, or_, truthy.
  destruct a as [s|]; [|reflexivity].
  now destruct (String.eqb s "").
Qed.

Lemma or_literal_nonempty (a : option string) (literal : string) :
  literal <> EmptyString -> or_literal a literal <> EmptyString.
Proof.
  intros Hlit. rewrite or_literal_eq.
  destruct a as [s|]; [|exact Hlit].
  destruct (String.eqb_spec s ""); assumption.
Qed.

(** X12.  The paths of the four commands (racer, rustfmt, rustsym, cargo)
    are never the empty string: an absent or empty setting gives the name of
    the command. *)
Theorem command_paths_never_empty (env : Settings) :
  getRacerPath env <> EmptyString /\
  getRustfmtPath env <> EmptyString /\
  getRustsymPath env <> EmptyString /\
  getCargoPath env <> EmptyString.
Proof.
  repeat split; apply or_literal_nonempty; discriminate.
Qed.

(** X13.  A setting that is a non-empty string is returned unchanged by
    its accessor, whatever the other settings and the environment hold. *)
Theorem configured_path_returned (env : Settings) (value : string) :
  value <> EmptyString ->
  (getConfiguration env "rust" "racerPath" = Some value -> getRacerPath env = value) /\
  (getConfiguration env "rust" "rustfmtPath" = Some value ->
   getRustfmtPath env = value) /\
  (getConfiguration env "rust" "rustsymPath" = Some value ->
   getRustsymPath env = value) /\
  (getConfiguration env "rust" "rustLangSrcPath" = Some value ->
   getRustLangSrcPath env = value) /\
  (getConfiguration env "rust" "cargoPath" = Some value -> getCargoPath env = value) /\
  (getConfiguration env "rust" "cargoHomePath" = Some value ->
   getCargoHomePath env = value).
Proof.
  intros Hne.
  assert (Hneb : String.eqb value "" = false) by now apply String.eqb_neq.
  unfold getRacerPath, getRustfmtPath, getRustsymPath, getRustLangSrcPath,
    getCargoPath, getCargoHomePath.
  repeat split; intros ->; unfold or_literal, or_, truthy; cbn;
    rewrite ?Hneb; cbn; rewrite ?Hneb; reflexivity.
Qed.

Lemma configured_path_returned_witness :
  getCargoHomePath
    (settings_of [("cargoHomePath", "/home/me/.cargo")] [("CARGO_HOME", "/elsewhere")])
  = "/home/me/.cargo".
Proof.
  apply (configured_path_returned
           (settings_of [("cargoHomePath", "/home/me/.cargo")]
                        [("CARGO_HOME", "/elsewhere")])
           "/home/me/.cargo"); [discriminate | reflexivity].
Defined.

(** X14.  [getCargoHomePath] prefers the setting to the environment: the
    variable CARGO_HOME is used only when the setting is absent or empty, and
    the result is the empty string exactly when both are absent or empty. *)
Theorem getCargoHomePath_priority (env : Settings) :
  let setting := getConfiguration env "rust" "cargoHomePath" in
  let variable := process_env env "CARGO_HOME" in
  (if truthy setting
   then Some (getCargoHomePath env) = setting
   else if truthy variable
        then Some (getCargoHomePath env) = variable
        else getCargoHomePath env = EmptyString) /\
  (getCargoHomePath env = EmptyString <->
   truthy setting = false /\ truthy variable = false).
Proof.
  intros setting variable; subst setting variable.
  unfold getCargoHomePath. rewrite or_literal_eq. unfold or_, truthy.
  destruct (getConfiguration env "rust" "cargoHomePath") as [s|];
    [destruct (String.eqb s "") eqn:Hs|];
    (destruct (process_env env "CARGO_HOME") as [v|];
     [destruct (String.eqb v "") eqn:Hv|]);
    cbn [negb]; rewrite ?Hs, ?Hv;
    repeat match goal with
           | H : String.eqb _ _ = true |- _ => apply String.eqb_eq in H; subst
           | H : String.eqb _ _ = false |- _ => apply String.eqb_neq in H
           end;
    repeat split; try congruence; try tauto;
    try (intros [H1 H2]; discriminate).
Qed.

(** X15.  [getRustLangSrcPath] gives the empty string exactly when the
    setting is absent or empty: an unset source path and an empty one cannot
    be told apart by its callers. *)
Theorem getRustLangSrcPath_empty_iff (env : Settings) :
  getRustLangSrcPath env = EmptyString <->
  truthy (getConfiguration env "rust" "rustLangSrcPath") = false.
Proof.
  unfold getRustLangSrcPath. rewrite or_literal_eq. unfold truthy.
  destruct (getConfiguration env "rust" "rustLangSrcPath") as [s|]; [|tauto].
  destruct (String.eqb_spec s ""); cbn; split; congruence.
Qed.
